(** * Smart parking finder: the backend of [src/backend/server.js]

    A shallow embedding of the prediction engine, the Overpass mirror
    client, the in-memory caches, the result transformer, the routes of
    the simulated and of the real lots and the periodic background job,
    followed by the properties stated about them.

    Conventions of the embedding.
    - A JavaScript Number that holds a count, an identifier or a
      millisecond timestamp is a [Z]; where the source computes with
      fractions (averages, weights, square roots, percentages) the value
      is a binary64 [float], the format of a JavaScript Number, and the
      operations are the IEEE ones of [PrimFloat].  [Z2F] is the view of
      an integer as a Number (round to nearest even, exact below 2^53).
    - [Math.random()] is an explicit source of draws; a draw is a rational
      of the interval [0,1) and the arithmetic applied to a draw before
      [Math.floor] is exact.
    - [await] is sequencing; a rejected promise or a [throw] is the
      [Thrown] outcome; the database, the socket and the console are
      fields of an explicit world that the functions pass along. *)

From Stdlib Require Import ZArith QArith Qround Floats Lia Lqa List Bool Ascii String.
From stdpp Require Import gmap strings list sorting pretty.

Set Warnings "-inexact-float".
Local Open Scope Z_scope.

(** ** JavaScript numbers *)

Module JS.

(** The Number that an integer denotes. *)
Definition Z2F (z : Z) : float :=
  SF2Prim (binary_normalize prec emax z 0 false).

(** [Math.floor] on the exact value of a fractional expression. *)
Definition Math_floor (q : Q) : Z := Qfloor q.

(** The integer nearest to the finite Number [± m * 2^e], ties toward
    +∞, as [Math.round] picks it. *)
Definition round_half_up (s : bool) (m : positive) (e : Z) : Z :=
  let sm := if s then Z.neg m else Z.pos m in
  if 0 <=? e then sm * 2 ^ e
  else (2 * sm + 2 ^ (- e)) `div` 2 ^ (1 - e).

(** [Math.round]: NaN, the infinities and the zeros are returned as they
    are; a value of (-0.5, 0) gives -0. *)
Definition Math_round (x : float) : float :=
  match Prim2SF x with
  | S754_finite s m e =>
      if 0 <=? e then x
      else
        let n := round_half_up s m e in
        if (n =? 0) && s then neg_zero else Z2F n
  | _ => x
  end.

Definition is_neg_zero (x : float) : bool :=
  match Prim2SF x with S754_zero true => true | _ => false end.

(** [Math.max] and [Math.min] of two Numbers: NaN if either is NaN, and
    +0 counts as larger than -0. *)
Definition Math_max (a b : float) : float :=
  if is_nan a || is_nan b then nan
  else if (a <? b)%float then b
  else if (b <? a)%float then a
  else if is_neg_zero a then b else a.

Definition Math_min (a b : float) : float :=
  if is_nan a || is_nan b then nan
  else if (a <? b)%float then a
  else if (b <? a)%float then b
  else if is_neg_zero a then a else b.

(** [Math.pow(x, 2)]. *)
Definition Math_pow2 (x : float) : float := (x * x)%float.

(** [Array.prototype.reduce] with an initial value, and [slice]. *)
Definition reduce {A B : Type} (f : B -> A -> B) (init : B) (l : list A) : B :=
  fold_left f l init.

Definition slice {A : Type} (from to : nat) (l : list A) : list A :=
  take (to - from) (drop from l).

(** Truthiness of a Number, and [a || b] on possibly missing Numbers:
    [a] when it is truthy, otherwise [b] whatever it is. *)
Definition truthy (x : float) : bool :=
  negb (is_nan x || is_zero x).

Definition or_else (a : option float) (b : option float) : option float :=
  match a with
  | Some x => if truthy x then Some x else b
  | None => b
  end.

(** [Date.prototype.getDay] and [getHours] of a millisecond timestamp,
    the server clock being UTC (1 January 1970 was a Thursday). *)
Definition getDay (t : Z) : Z := (t `div` 86400000 + 4) `mod` 7.
Definition getHours (t : Z) : Z := (t `div` 3600000) `mod` 24.

(** What a call returns or throws. *)
(** A thrown value: [new Error(message)], or [undefined]. *)
Inductive Exn : Type :=
  | Error (message : string)
  | undefined.

Definition message_of (e : Exn) : option string :=
  match e with Error m => Some m | undefined => None end.

Inductive Outcome (A : Type) : Type :=
  | Returned (a : A)
  | Thrown (e : Exn).
Arguments Returned {A} a.
Arguments Thrown {A} e.

(** [parseInt(string)] with no radix: leading white space, an optional
    sign, an optional [0x] prefix, then the longest run of digits; [None]
    is NaN.  An absent argument reads as the text "undefined", which has
    no digit. *)
Definition is_space (c : ascii) : bool :=
  let n := Z.of_N (N_of_ascii c) in
  (n =? 32) || ((9 <=? n) && (n <=? 13)).

Definition digit_of (radix : Z) (c : ascii) : option Z :=
  let n := Z.of_N (N_of_ascii c) in
  let d := if (48 <=? n) && (n <=? 57) then Some (n - 48)
           else if (97 <=? n) && (n <=? 122) then Some (n - 87)
           else if (65 <=? n) && (n <=? 90) then Some (n - 55)
           else None in
  match d with
  | Some v => if v <? radix then Some v else None
  | None => None
  end.

Fixpoint parse_digits (radix : Z) (s : string) (acc : option Z) : option Z * string :=
  match s with
  | EmptyString => (acc, s)
  | String c s' =>
      match digit_of radix c with
      | Some d => parse_digits radix s' (Some (default 0 acc * radix + d))
      | None => (acc, s)
      end
  end.

Fixpoint trim_start (s : string) : string :=
  match s with
  | String c s' => if is_space c then trim_start s' else s
  | EmptyString => s
  end.

Definition strip_sign (s : string) : bool * string :=
  match s with
  | String "-" s' => (true, s')
  | String "+" s' => (false, s')
  | _ => (false, s)
  end.

Definition parseInt (arg : option string) : option Z :=
  match arg with
  | None => None
  | Some text =>
      let (negative, s) := strip_sign (trim_start text) in
      let (radix, digits) :=
        match s with
        | String "0" (String "x" s') => (16, s')
        | String "0" (String "X" s') => (16, s')
        | _ => (10, s)
        end in
      match fst (parse_digits radix digits None) with
      | Some n => Some (if negative then - n else n)
      | None => None
      end
  end.

(** [parseInt(arg) || other]: NaN and 0 are falsy. *)
Definition parseInt_or (arg : option string) (other : Z) : Z :=
  match parseInt arg with
  | Some n => if n =? 0 then other else n
  | None => other
  end.

(** [x.toFixed(digits)]: the decimal numeral of the integer nearest to
    [x * 10^digits] (the larger on a tie) with the point put back; the
    names of the non-finite values otherwise.  Exact below 10^21, above
    which the source switches to the exponent notation. *)
Definition pad_left (width : nat) (s : string) : string :=
  String.concat "" (replicate (width - String.length s) "0") +:+ s.

Definition toFixed (x : float) (digits : nat) : string :=
  match Prim2SF x with
  | S754_nan => "NaN"
  | S754_infinity s => if s then "-Infinity" else "Infinity"
  | S754_zero _ =>
      if (digits =? 0)%nat then "0" else "0." +:+ pad_left digits ""
  | S754_finite s m e =>
      let scaled := Z.to_pos (Z.pos m * 10 ^ Z.of_nat digits) in
      let n := round_half_up false scaled e in
      let whole := n `div` 10 ^ Z.of_nat digits in
      let frac := n `mod` 10 ^ Z.of_nat digits in
      (if s then "-" else "") +:+ pretty whole +:+
      (if (digits =? 0)%nat then "" else "." +:+ pad_left digits (pretty frac))
  end.

(** [parseFloat(string)] on a decimal numeral without exponent, which is
    what [toFixed] writes: the Number nearest to the decimal value, and
    NaN when the text starts with no numeral. *)
Definition parseFloat (text : string) : float :=
  let (negative, s) := strip_sign (trim_start text) in
  let signed (x : float) := if negative then (- x)%float else x in
  if String.prefix "Infinity" s then signed infinity
  else
    let (whole, rest) := parse_digits 10 s None in
    let (frac, places) :=
      match rest with
      | String "." s' =>
          let (f, rest') := parse_digits 10 s' None in
          (f, (String.length s' - String.length rest')%nat)
      | _ => (None, 0%nat)
      end in
    match whole, frac with
    | None, None => nan
    | _, _ =>
        let num := default 0 whole * 10 ^ Z.of_nat places + default 0 frac in
        signed (Z2F num / Z2F (10 ^ Z.of_nat places))%float
    end.

End JS.
Import JS.

(** ** The source of [Math.random()] draws *)

Record RandomSource : Type := mkRandom {
  draws : nat -> Q;
  cursor : nat
}.

Definition Math_random (g : RandomSource) : Q * RandomSource :=
  (draws g (cursor g), mkRandom (draws g) (S (cursor g))).

(** A draw lies in [0, 1). *)
Definition unit_draw (r : Q) : Prop := (0 <= r)%Q /\ (r < 1)%Q.

(** ** The data model: the Mongo collections *)

Record Location : Type := mkLocation {
  lat : float;
  lng : float
}.

Record Sensor : Type := mkSensor {
  spotId : string;
  isOccupied : bool
}.

(** A document of the [ParkingLot] collection. *)
Module ParkingLot.
Record t : Type := mk {
  _id : string;
  name : string;
  totalSpots : Z;
  availableSpots : Z;
  location : Location;
  sensors : list Sensor;
  lastUpdate : Z
}.

(** [ParkingLot.findById]. *)
Definition findById (lots : list t) (id : string) : option t :=
  List.find (fun lot => bool_decide (_id lot = id)) lots.
End ParkingLot.

(** A document of the [HistoricalData] collection. *)
Module HistoricalData.
Record t : Type := mk {
  parkingLotId : string;
  timestamp : Z;
  availableSpots : Z;
  occupancyRate : float;
  dayOfWeek : Z;
  hour : Z;
  isHoliday : bool
}.

(** [.sort({ timestamp: -1 })]: most recent first. *)
Definition newer_first (a b : t) : Prop := timestamp b <= timestamp a.

#[global] Instance newer_first_dec a b : Decision (newer_first a b).
Proof. unfold newer_first. apply _. Defined.

Definition sort_desc (l : list t) : list t := merge_sort newer_first l.

(** [HistoricalData.find({parkingLotId, dayOfWeek, hour})
      .sort({timestamp: -1}).limit(n)]. *)
Definition find_pattern (history : list t) (id : string) (day hr : Z) (n : nat) : list t :=
  take n (sort_desc (List.filter
    (fun r => bool_decide (parkingLotId r = id) && (dayOfWeek r =? day) && (hour r =? hr))
    history)).

(** [HistoricalData.find({parkingLotId}).sort({timestamp: -1}).limit(n)]. *)
Definition find_recent (history : list t) (id : string) (n : nat) : list t :=
  take n (sort_desc (List.filter (fun r => bool_decide (parkingLotId r = id)) history)).
End HistoricalData.

(** The two collections the prediction engine reads. *)
Record Store : Type := mkStore {
  lots : list ParkingLot.t;
  history : list HistoricalData.t
}.

(** ** The prediction algorithm: [class ParkingPredictor] *)

Record Prediction : Type := mkPrediction {
  predictedSpots : float;
  confidence : float
}.

Module ParkingPredictor.

(** The sum [reduce((s, r) => s + r.availableSpots, 0)] of a list of
    records. *)
Definition sumAvailable (records : list HistoricalData.t) : float :=
  reduce (fun sum record => (sum + Z2F (HistoricalData.availableSpots record))%float)
         0%float records.

(** [trend]: zero below two recent records, otherwise the sum of the
    first three divided by 3 minus the sum of the next three divided
    by 3. *)
Definition trendOf (recentData : list HistoricalData.t) : float :=
  if (2 <=? length recentData)%nat then
    let recentAvg := (sumAvailable (slice 0 3 recentData) / 3)%float in
    let olderAvg := (sumAvailable (slice 3 6 recentData) / 3)%float in
    (recentAvg - olderAvg)%float
  else 0%float.

(** [predictAvailability(parkingLotId, minutesAhead)], run at time
    [now]; [r] is the value [Math.random()] returns if it is called.
    The [catch] of the source logs the error and throws it again. *)
Definition predictAvailability (db : Store) (now : Z) (r : Q)
    (parkingLotId : string) (minutesAhead : Z) : Outcome Prediction :=
  match ParkingLot.findById (lots db) parkingLotId with
  | None => Thrown (Error "Parking lot not found")
  | Some lot =>
      let targetTime := now + minutesAhead * 60000 in
      let targetHour := getHours targetTime in
      let targetDay := getDay targetTime in
      let historicalPattern :=
        HistoricalData.find_pattern (history db) parkingLotId targetDay targetHour 20 in
      if (length historicalPattern =? 0)%nat then
        Returned {|
          predictedSpots :=
            Z2F (Z.max 0 (ParkingLot.availableSpots lot + Math_floor (r * 10 - 5)));
          confidence := 60%float |}
      else
        let avgAvailability :=
          (sumAvailable historicalPattern / Z2F (Z.of_nat (length historicalPattern)))%float in
        let recentData := HistoricalData.find_recent (history db) parkingLotId 6 in
        let trend := trendOf recentData in
        let predictedSpots :=
          Math_round (avgAvailability * 0.6
                      + Z2F (ParkingLot.availableSpots lot) * 0.3
                      + trend * 0.1)%float in
        let variance :=
          (reduce (fun sum record =>
                     (sum + Math_pow2 (Z2F (HistoricalData.availableSpots record)
                                       - avgAvailability))%float)
                  0%float historicalPattern
           / Z2F (Z.of_nat (length historicalPattern)))%float in
        let stdDev := PrimFloat.sqrt variance in
        let confidence :=
          Math_min 95 (Math_max 70
            (100 - (stdDev / Z2F (ParkingLot.totalSpots lot)) * 100)%float) in
        let adjustedPrediction :=
          Math_max 0 (Math_min (Z2F (ParkingLot.totalSpots lot)) predictedSpots) in
        Returned {| predictedSpots := adjustedPrediction;
                    confidence := Math_round confidence |}
  end.

End ParkingPredictor.

(** ** The seed data of [seedDatabase] and a history for lot A *)

Definition seedLot (id nm : string) (total avail : Z) (la lo : float) : ParkingLot.t :=
  ParkingLot.mk id nm total avail (mkLocation la lo) [] 0.

Definition seedLots : list ParkingLot.t :=
  [ seedLot "A" "North Campus Lot A" 150 45 33.4242 (-111.9281);
    seedLot "B" "South Campus Lot B" 200 12 33.4225 (-111.9265);
    seedLot "C" "Engineering Building Lot" 80 65 33.4258 (-111.9298);
    seedLot "D" "Student Center Garage" 300 5 33.4210 (-111.9250) ].

(** A history for lot A on the model of the end-to-end scenario.  The
    clock reads Thursday 10:40 of the eleventh week; the forecast window
    30 minutes ahead falls in the hour 11.  For each of the ten previous
    Thursdays there are two observations in the hour 11 (45 and 55 free
    spots: mean 50, standard deviation 5); the six latest observations
    were taken between 8:05 and 10:35 of the current day (48, 48, 48,
    then 52, 52, 52 going back in time). *)
Definition observe (id : string) (ts avail total : Z) : HistoricalData.t :=
  HistoricalData.mk id ts avail
    ((Z2F total - Z2F avail) / Z2F total * 100)%float
    (getDay ts) (getHours ts) false.

Definition scenarioNow : Z := 70 * 86400000 + 10 * 3600000 + 40 * 60000.

Definition scenarioPattern : list HistoricalData.t :=
  flat_map (fun k : nat =>
      let thursday := (70 - 7 * Z.of_nat k) * 86400000 in
      [ observe "A" (thursday + 11 * 3600000 + 5 * 60000) 45 150;
        observe "A" (thursday + 11 * 3600000 + 35 * 60000) 55 150 ])
    (seq 1 10).

Definition scenarioRecent : list HistoricalData.t :=
  [ observe "A" (scenarioNow - 5 * 60000) 48 150;
    observe "A" (scenarioNow - 35 * 60000) 48 150;
    observe "A" (scenarioNow - 65 * 60000) 48 150;
    observe "A" (scenarioNow - 95 * 60000) 52 150;
    observe "A" (scenarioNow - 125 * 60000) 52 150;
    observe "A" (scenarioNow - 155 * 60000) 52 150 ].

Definition scenarioStore : Store :=
  mkStore seedLots (scenarioPattern ++ scenarioRecent).

(** A short history for lot B: four observations in all, one in the
    hour 11 of each of the four previous Thursdays, 48 free spots each
    time. *)
Definition flatHistory : list HistoricalData.t :=
  List.map (fun k : nat =>
      observe "B" ((70 - 7 * Z.of_nat k) * 86400000 + 11 * 3600000 + 5 * 60000) 48 200)
    (seq 1 4).

Definition flatStore : Store := mkStore seedLots flatHistory.

(** ** The REST routes of the simulated lots *)

Inductive Body : Type :=
  | ErrorJson (error : string)
  | PredictionJson (predictedSpots confidence : float) (predictedFor : Z)
  | LotJson (lot : ParkingLot.t) (prediction : option Prediction)
  | StatsJson (totalParkingLots totalSpots totalAvailable : Z) (avgOccupancy : float).

Record Response : Type := mkResponse {
  status : Z;
  body : Body
}.

(** [error.message] of a caught value. *)
Definition error_message (e : Exn) : string := default "" (message_of e).

(** [app.get('/api/parking-lots/:id')]. *)
Definition get_parking_lot (db : Store) (now : Z) (r : Q) (id : string) : Response :=
  match ParkingLot.findById (lots db) id with
  | None => mkResponse 404 (ErrorJson "Parking lot not found")
  | Some lot =>
      match ParkingPredictor.predictAvailability db now r (ParkingLot._id lot) 30 with
      | Returned prediction => mkResponse 200 (LotJson lot (Some prediction))
      | Thrown error => mkResponse 500 (ErrorJson (error_message error))
      end
  end.

(** [app.get('/api/parking-lots/:id/predict')]; [minutes] is
    [req.query.minutes]. *)
Definition get_parking_lot_predict (db : Store) (now : Z) (r : Q)
    (id : string) (minutes : option string) : Response :=
  let minutesAhead := parseInt_or minutes 30 in
  match ParkingPredictor.predictAvailability db now r id minutesAhead with
  | Returned prediction =>
      mkResponse 200
        (PredictionJson (predictedSpots prediction) (confidence prediction)
                        (now + minutesAhead * 60000))
  | Thrown error => mkResponse 500 (ErrorJson (error_message error))
  end.

(** [app.get('/api/stats')]. *)
Definition get_stats (db : Store) : Response :=
  let totalSpots := reduce (fun sum lot => sum + ParkingLot.totalSpots lot) 0 (lots db) in
  let totalAvailable := reduce (fun sum lot => sum + ParkingLot.availableSpots lot) 0 (lots db) in
  let avgOccupancy :=
    toFixed ((Z2F totalSpots - Z2F totalAvailable) / Z2F totalSpots * 100)%float 1 in
  mkResponse 200
    (StatsJson (Z.of_nat (length (lots db))) totalSpots totalAvailable (parseFloat avgOccupancy)).

(** What [JSON.stringify] writes for a Number: the numeral of a finite
    value ([Some]), and [null] for NaN and the infinities ([None]). *)
Definition json_number (x : float) : option float :=
  if is_nan x || is_infinity x then None else Some x.

(** ** The world of the update route and of the background job *)

(** The payload of a ['parking-update'] event. *)
Module ParkingUpdate.
Record t : Type := mk {
  lotId : string;
  availableSpots : Z;
  timestamp : Z
}.
End ParkingUpdate.

Record World : Type := mkWorld {
  store : Store;
  emitted : list ParkingUpdate.t;
  console : list string;
  random : RandomSource
}.

(** Which database writes fail, by lot id. *)
Record Faults : Type := mkFaults {
  findFails : bool;
  lotSaveFails : string -> bool;
  historySaveFails : string -> bool
}.

Definition noFaults : Faults := mkFaults false (fun _ => false) (fun _ => false).

Definition console_error (line : string) (w : World) : World :=
  mkWorld (store w) (emitted w) (console w ++ [line]) (random w).

Definition io_emit (event : ParkingUpdate.t) (w : World) : World :=
  mkWorld (store w) (emitted w ++ [event]) (console w) (random w).

(** Writing a document back under its [_id]. *)
Definition persist (lot : ParkingLot.t) (all : list ParkingLot.t) : list ParkingLot.t :=
  List.map (fun l => if bool_decide (ParkingLot._id l = ParkingLot._id lot) then lot else l) all.

Definition save_lot (lot : ParkingLot.t) (w : World) : World :=
  mkWorld (mkStore (persist lot (lots (store w))) (history (store w)))
          (emitted w) (console w) (random w).

Definition take_draw (w : World) : Q * World :=
  let (r, g) := Math_random (random w) in
  (r, mkWorld (store w) (emitted w) (console w) g).

(** [ParkingPredictor.recordCurrentState(parkingLotId)]: its own
    [try]/[catch] logs a failed write and returns. *)
Definition recordCurrentState (faults : Faults) (now : Z) (parkingLotId : string)
    (w : World) : World :=
  match ParkingLot.findById (lots (store w)) parkingLotId with
  | None => w
  | Some lot =>
      let record :=
        HistoricalData.mk parkingLotId now (ParkingLot.availableSpots lot)
          ((Z2F (ParkingLot.totalSpots lot) - Z2F (ParkingLot.availableSpots lot))
           / Z2F (ParkingLot.totalSpots lot) * 100)%float
          (getDay now) (getHours now) false in
      if historySaveFails faults parkingLotId
      then console_error "Error recording historical data:" w
      else mkWorld (mkStore (lots (store w)) (history (store w) ++ [record]))
                   (emitted w) (console w) (random w)
  end.

(** [app.put('/api/parking-lots/:id')] with the body
    [{ availableSpots, sensors }]. *)
Definition put_parking_lot (faults : Faults) (now : Z) (id : string)
    (availableSpots : Z) (sensors : list Sensor) (w : World) : Response * World :=
  if lotSaveFails faults id then (mkResponse 500 (ErrorJson "update failed"), w)
  else
    match ParkingLot.findById (lots (store w)) id with
    | None => (mkResponse 404 (ErrorJson "Parking lot not found"), w)
    | Some found =>
        let lot :=
          ParkingLot.mk (ParkingLot._id found) (ParkingLot.name found)
            (ParkingLot.totalSpots found) availableSpots
            (ParkingLot.location found) sensors now in
        let w := save_lot lot w in
        let w := recordCurrentState faults now (ParkingLot._id lot) w in
        let w := io_emit (ParkingUpdate.mk (ParkingLot._id lot)
                            (ParkingLot.availableSpots lot) (ParkingLot.lastUpdate lot)) w in
        (mkResponse 200 (LotJson lot None), w)
    end.

(** ** The background job *)

(** The body of [for (const lot of lots)], up to the first [save] that
    throws. *)
Fixpoint updateLots (faults : Faults) (now : Z) (pending : list ParkingLot.t)
    (w : World) : Outcome unit * World :=
  match pending with
  | [] => (Returned tt, w)
  | lot :: rest =>
      let (r, w) := take_draw w in
      let change := Math_floor (r * 7) - 3 in
      let newAvailable :=
        Z.max 0 (Z.min (ParkingLot.totalSpots lot) (ParkingLot.availableSpots lot + change)) in
      let lot :=
        ParkingLot.mk (ParkingLot._id lot) (ParkingLot.name lot)
          (ParkingLot.totalSpots lot) newAvailable
          (ParkingLot.location lot) (ParkingLot.sensors lot) now in
      if lotSaveFails faults (ParkingLot._id lot)
      then (Thrown (Error "save failed"), w)
      else
        let w := save_lot lot w in
        let (r, w) := take_draw w in
        let w := if negb (Qle_bool (17 # 100) r)
                 then recordCurrentState faults now (ParkingLot._id lot) w
                 else w in
        let w := io_emit (ParkingUpdate.mk (ParkingLot._id lot)
                            (ParkingLot.availableSpots lot) (ParkingLot.lastUpdate lot)) w in
        updateLots faults now rest w
  end.

(** One firing of the [setInterval] callback: a single [try]/[catch]
    around the query and the whole loop. *)
Definition backgroundJob (faults : Faults) (now : Z) (w : World) : World :=
  if findFails faults then console_error "Background update error:" w
  else
    match updateLots faults now (lots (store w)) w with
    | (Returned _, w) => w
    | (Thrown _, w) => console_error "Background update error:" w
    end.

(** ** Overpass helpers: mirrors, retries, caches *)

Definition OVERPASS_MIRRORS : list string :=
  [ "https://overpass-api.de/api/interpreter";
    "https://overpass.kumi.systems/api/interpreter";
    "https://overpass.openstreetmap.ru/api/interpreter" ].

(** An element of an Overpass answer. *)
Record Center : Type := mkCenter {
  center_lat : option float;
  center_lon : option float
}.

Record Element : Type := mkElement {
  el_id : Z;
  el_lat : option float;
  el_lon : option float;
  el_center : option Center;
  el_tags : option (gmap string string)
}.

(** [el.tags?.key]. *)
Definition tag (el : Element) (key : string) : option string :=
  el_tags el ≫= (fun tags => tags !! key).

(** The text of a query, by the function that builds it. *)
Inductive Query : Type :=
  | AreaQuery (lat lng : float) (radius : Z) (relations : bool)
  | IdQuery (id : string).

Definition buildOverpassAreaQuery (lat lng : float) (radius : Z) : Query :=
  AreaQuery lat lng radius true.

Definition starts_with_osm (s : string) : bool := String.prefix "osm-" s.

Definition buildOverpassIdQuery (osmId : string) : Query :=
  IdQuery (if starts_with_osm osmId then String.substring 4 (String.length osmId - 4) osmId
           else osmId).

(** What [axios.post] settles to. *)
Inductive AxiosResult : Type :=
  | Resolved (status : Z) (elements : option (list Element))
  | Rejected (e : Exn).

Record Request : Type := mkRequest {
  url : option string;
  data : Query
}.

(** The network: what the [k]-th request of the process settles to, the
    requests sent so far, and the delays slept. *)
Record Net : Type := mkNet {
  settle : nat -> Request -> AxiosResult;
  sent : list Request;
  slept : list Z
}.

Definition axios_post (rq : Request) (net : Net) : AxiosResult * Net :=
  (settle net (length (sent net)) rq, mkNet (settle net) (sent net ++ [rq]) (slept net)).

Definition setTimeout (delay : Z) (net : Net) : Net :=
  mkNet (settle net) (sent net) (slept net ++ [delay]).

(** [callOverpass(query, { attempts, timeoutMs })] over a list of
    mirrors: the loop from attempt [i] with [todo] attempts left. *)
Fixpoint callOverpass_from (mirrors : list string) (query : Query)
    (todo i : nat) (lastErr : Exn) (net : Net) : Outcome (option (list Element)) * Net :=
  match todo with
  | O => (Thrown lastErr, net)
  | S todo' =>
      let url := mirrors !! (i mod length mirrors)%nat in
      let (resp, net) := axios_post (mkRequest url query) net in
      let caught (err : Exn) (net : Net) :=
        let delay := 500 * 2 ^ Z.of_nat i in
        callOverpass_from mirrors query todo' (S i) err (setTimeout delay net) in
      match resp with
      | Resolved status elements =>
          if (200 <=? status) && (status <? 300) then (Returned elements, net)
          else caught (Error ("Overpass non-2xx: " +:+ pretty status)) net
      | Rejected err => caught err net
      end
  end.

Definition callOverpass_on (mirrors : list string) (query : Query) (attempts : nat)
    (net : Net) : Outcome (option (list Element)) * Net :=
  callOverpass_from mirrors query attempts 0 undefined net.

(** The function of the source: the mirrors are [OVERPASS_MIRRORS]. *)
Definition callOverpass : Query -> nat -> Net -> Outcome (option (list Element)) * Net :=
  callOverpass_on OVERPASS_MIRRORS.

(** A lot in the shape the routes answer with. *)
Module Facility.
Record t : Type := mk {
  id : string;
  name : string;
  totalSpots : Z;
  availableSpots : Z;
  location : Location;
  lastUpdate : Z;
  predictedAvailability : Z;
  confidence : Z
}.
End Facility.

(** The in-memory caches. *)
Record AreaCache : Type := mkAreaCache {
  key : option string;
  cachedLots : option (list Facility.t);
  indexById : option (gmap string Facility.t);
  ts : Z
}.

Definition emptyAreaCache : AreaCache := mkAreaCache None None None 0.

Record IdEntry : Type := mkIdEntry {
  entryLot : Facility.t;
  entryTs : Z
}.

Definition areaKey (lat lng : float) (radius : Z) : string :=
  toFixed lat 3 +:+ "," +:+ toFixed lng 3 +:+ "," +:+ pretty radius.

Definition saveAreaCache (now : Z) (k : string) (found : list Facility.t) : AreaCache :=
  let index :=
    fold_left (fun (index : gmap string Facility.t) lot => <[Facility.id lot := lot]> index)
              found ∅ in
  mkAreaCache (Some k) (Some found) (Some index) now.

Definition readAreaCache (now : Z) (areaCache : AreaCache) (k : string) (maxAgeMs : Z)
    : option AreaCache :=
  if negb (bool_decide (key areaCache = Some k)) then None
  else if maxAgeMs <? now - ts areaCache then None
  else Some areaCache.

Definition saveIdCache (now : Z) (id : string) (lot : Facility.t)
    (singleIdCache : gmap string IdEntry) : gmap string IdEntry :=
  <[id := mkIdEntry lot now]> singleIdCache.

Definition readIdCache (now : Z) (id : string) (maxAgeMs : Z)
    (singleIdCache : gmap string IdEntry) : option Facility.t * gmap string IdEntry :=
  match singleIdCache !! id with
  | None => (None, singleIdCache)
  | Some entry =>
      if maxAgeMs <? now - entryTs entry then (None, delete id singleIdCache)
      else (Some (entryLot entry), singleIdCache)
  end.

(** [mapOverpassToParkingLots]: the callback of [map], then the whole. *)
Definition mapElement (fallbackLat fallbackLng : float) (now : Z)
    (el : Element) (idx : nat) (g : RandomSource) : Facility.t * RandomSource :=
  let (capacity, g) :=
    match parseInt (tag el "capacity") with
    | Some n =>
        if n =? 0 then let (r, g) := Math_random g in (Math_floor (r * 200 + 50), g)
        else (n, g)
    | None => let (r, g) := Math_random g in (Math_floor (r * 200 + 50), g)
    end in
  let (r, g) := Math_random g in
  let occupied := Math_floor (inject_Z capacity * ((3 # 10) + r * (1 # 2))) in
  let available := Z.max 0 (capacity - occupied) in
  let centerLat :=
    default fallbackLat
      (or_else (or_else (el_lat el) (el_center el ≫= center_lat)) (Some fallbackLat)) in
  let centerLng :=
    default fallbackLng
      (or_else (or_else (el_lon el) (el_center el ≫= center_lon)) (Some fallbackLng)) in
  let name :=
    match tag el "name" with
    | Some (String c s) => String c s
    | _ => "Parking Lot " +:+ pretty (idx + 1)%nat
    end in
  let (r3, g) := Math_random g in
  let (r4, g) := Math_random g in
  (Facility.mk ("osm-" +:+ pretty (el_id el)) name capacity available
     (mkLocation centerLat centerLng) now
     (Z.max 0 (available + Math_floor (r3 * 20 - 10)))
     (85 + Math_floor (r4 * 10)),
   g).

Fixpoint mapElements (fallbackLat fallbackLng : float) (now : Z)
    (elements : list Element) (idx : nat) (g : RandomSource)
    : list Facility.t * RandomSource :=
  match elements with
  | [] => ([], g)
  | el :: rest =>
      let (lot, g) := mapElement fallbackLat fallbackLng now el idx g in
      let (more, g) := mapElements fallbackLat fallbackLng now rest (S idx) g in
      (lot :: more, g)
  end.

Definition mapOverpassToParkingLots (elements : list Element)
    (fallbackLat fallbackLng : float) (now : Z) (g : RandomSource)
    : list Facility.t * RandomSource :=
  mapElements fallbackLat fallbackLng now (slice 0 50 elements) 0 g.

(** The process-wide state of the Overpass helpers. *)
Record Server : Type := mkServer {
  areaCache : AreaCache;
  singleIdCache : gmap string IdEntry;
  net : Net
}.

(** A [ReferenceError]: what reading a name that no scope declares
    throws.  It is an [Error] whose message names the identifier. *)
Definition ReferenceError (name : string) : Exn := Error (name +:+ " is not defined").

(** [fetchOpenStreetMapParking(lat, lng, radius)].  After building the
    text of its query the function enters
    [for (const ep of OVERPASS_ENDPOINTS)].  The file declares no
    [OVERPASS_ENDPOINTS] (its list of mirrors is [OVERPASS_MIRRORS]), so
    evaluating the head of the loop throws a [ReferenceError] outside
    every [try]: the body, with its [axios.post] and its call of
    [transformOverpassToLots], a name the file does not declare either,
    is never entered, and the promise of the [async] function rejects.
    The function names neither [areaCache] nor its helpers. *)
Definition fetchOpenStreetMapParking (lat lng : float) (radius : Z) (s : Server)
    : Outcome (list Facility.t) * Server :=
  let query := AreaQuery lat lng radius false in
  (Thrown (ReferenceError "OVERPASS_ENDPOINTS"), s).

(** [fetchOpenStreetMapParkingById(osmId, { latFallback, lngFallback })]:
    the per-id cache, then the index of the area cache, then Overpass.
    The answer carries the lot and the name of its source. *)
Definition fetchOpenStreetMapParkingById (now : Z) (osmId : string)
    (latFallback lngFallback : float) (g : RandomSource) (s : Server)
    : Outcome (Facility.t * string) * RandomSource * Server :=
  let id := if starts_with_osm osmId then osmId else "osm-" +:+ osmId in
  let (cachedLot, idCache) := readIdCache now id (60 * 60 * 1000) (singleIdCache s) in
  match cachedLot with
  | Some lot => (Returned (lot, "id-cache"), g, mkServer (areaCache s) idCache (net s))
  | None =>
      match indexById (areaCache s) ≫= (fun index => index !! id) with
      | Some lot =>
          (Returned (lot, "area-cache"), g,
           mkServer (areaCache s) (saveIdCache now id lot idCache) (net s))
      | None =>
          let query := buildOverpassIdQuery id in
          let (answer, net) := callOverpass query 3 (net s) in
          match answer with
          | Thrown e => (Thrown e, g, mkServer (areaCache s) idCache net)
          | Returned elements =>
              let (found, g) :=
                mapOverpassToParkingLots (default [] elements) latFallback lngFallback now g in
              match found with
              | [] => (Thrown (Error "OSM lot not found"), g,
                       mkServer (areaCache s) idCache net)
              | lot :: _ =>
                  (Returned (lot, "overpass"), g,
                   mkServer (areaCache s) (saveIdCache now id lot idCache) net)
              end
          end
      end
  end.

(** ** The route of the real lots *)

(** The body of an answer of [/api/parking-lots/real]. *)
Inductive RealBody : Type :=
  | RealLots (found : list Facility.t)
  | RealError (error message : string).

(** [x || other] on Numbers. *)
Definition number_or (x other : float) : float := if truthy x then x else other.

Definition console_log (line : string) (w : World) : World :=
  mkWorld (store w) (emitted w) (console w ++ [line]) (random w).

(** The callback of [lots.map] in the fallback of the route: a lot of
    the database in the shape of a real lot. *)
Definition fallbackLot (lot : ParkingLot.t) (g : RandomSource) : Facility.t * RandomSource :=
  let (r, g) := Math_random g in
  (Facility.mk (ParkingLot._id lot) (ParkingLot.name lot) (ParkingLot.totalSpots lot)
     (ParkingLot.availableSpots lot) (ParkingLot.location lot) (ParkingLot.lastUpdate lot)
     (Z.max 0 (ParkingLot.availableSpots lot + Math_floor (r * 20 - 10)))
     90,
   g).

Fixpoint fallbackLots (all : list ParkingLot.t) (g : RandomSource)
    : list Facility.t * RandomSource :=
  match all with
  | [] => ([], g)
  | lot :: rest =>
      let (first, g) := fallbackLot lot g in
      let (more, g) := fallbackLots rest g in
      (first :: more, g)
  end.

(** [app.get('/api/parking-lots/real')]; [lat] and [lng] are
    [parseFloat(req.query.lat)] and [parseFloat(req.query.lng)] ([nan]
    when the parameter is missing), [radius] is [req.query.radius]. *)
Definition get_real_parking_lots (faults : Faults) (lat lng : float)
    (radius : option string) (w : World) (s : Server) : Z * RealBody * World * Server :=
  let lat := number_or lat 33.4242 in
  let lng := number_or lng (-111.9281) in
  let radius := parseInt_or radius 5000 in
  let w := console_log "REAL DATA params =>" w in
  let (realParkingData, s) := fetchOpenStreetMapParking lat lng radius s in
  match realParkingData with
  | Returned found =>
      if (length found =? 0)%nat
      then (404, RealError "No parking lots found in this area"
                   "Try expanding the search radius or different coordinates", w, s)
      else (200, RealLots found, w, s)
  | Thrown error =>
      let w := console_error "Overpass failed; falling back to DB lots:" w in
      if findFails faults
      then (503, RealError "Failed to fetch real parking data"
                   "Overpass unavailable and no local fallback",
            console_error "DB fallback also failed:" w, s)
      else
        let lots := take 10 (lots (store w)) in
        if (0 <? length lots)%nat
        then
          let (fallback, g) := fallbackLots lots (random w) in
          (200, RealLots fallback, mkWorld (store w) (emitted w) (console w) g, s)
        else (503, RealError "Failed to fetch real parking data"
                     "Overpass unavailable and no local fallback", w, s)
  end.

(** A network whose every request is answered 200 with one element, and
    the server as it is when the process starts. *)
Definition sampleElement : Element :=
  mkElement 4242 (Some 33.42%float) (Some (-111.93)%float) None
            (Some {[ "capacity" := "120"; "name" := "Lot 59" ]}).

Definition healthyNet : Net :=
  mkNet (fun _ _ => Resolved 200 (Some [sampleElement])) [] [].

Definition freshServer : Server := mkServer emptyAreaCache ∅ healthyNet.

Definition constantDraws (q : Q) : RandomSource := mkRandom (fun _ => q) 0.

(** Inputs on which the predicted availability is evaluated below: a
    full lot, an element with a small capacity hint, and a source whose
    second draw is 0.97. *)
Definition fullLot : ParkingLot.t :=
  seedLot "F" "Full Lot" 150 150 33.4242 (-111.9281).

Definition smallElement : Element :=
  mkElement 7 (Some 33.42%float) (Some (-111.93)%float) None
            (Some {[ "capacity" := "5" ]}).

Definition lateDraws : RandomSource :=
  mkRandom (fun n => match n with 1%nat => 97 # 100 | _ => 0%Q end) 0.

(** Two successive calls of [fetchOpenStreetMapParking] with the same
    arguments on a fresh server whose network would answer every
    request. *)
Definition listNearbyTwice : Server :=
  let fetch := fetchOpenStreetMapParking 33.4242 (-111.9281) 5000 in
  snd (fetch (snd (fetch freshServer))).

(** A network whose first two answers fail (a 504, then a time-out)
    and whose later answers succeed. *)
Definition flakyNet : Net :=
  mkNet (fun k _ =>
           match k with
           | 0%nat => Resolved 504 None
           | 1%nat => Rejected (Error "timeout of 25000ms exceeded")
           | _ => Resolved 200 (Some [sampleElement])
           end) [] [].

(** The seeded world, and the faults that make the write of lot A
    fail. *)
Definition seededWorld : World :=
  mkWorld (mkStore seedLots []) [] [] (constantDraws (9 # 10)).

Definition lotAFails : Faults :=
  mkFaults false (fun id => bool_decide (id = "A")) (fun _ => false).

(** ** The vocabulary of the statements

    First the forecast as the specification words it: mean and standard
    deviation of a list of Numbers (summed from the left, the deviation
    being that of the whole matched population), the clamp to an
    interval, and the blended forecast with its confidence.  These
    follow the prose; they are compared below with
    [ParkingPredictor.predictAvailability].  Then the notions in which
    the other properties are stated. *)
Module Spec.

Definition sum (xs : list float) : float := fold_left PrimFloat.add xs 0%float.

Definition mean (xs : list float) : float :=
  (sum xs / Z2F (Z.of_nat (length xs)))%float.

Definition stdDev (xs : list float) : float :=
  let mu := mean xs in
  PrimFloat.sqrt (mean (List.map (fun x => ((x - mu) * (x - mu))%float) xs)).

Definition clamp (x lo hi : float) : float := Math_max lo (Math_min hi x).

Definition forecast (total current avgAvailability sd trend : float) : Prediction :=
  {| predictedSpots :=
       clamp (Math_round (0.6 * avgAvailability + 0.3 * current + 0.1 * trend)%float)
             0 total;
     confidence := Math_round (clamp (100 - (sd / total) * 100)%float 70 95) |}.

(** The matched history of a request: at most 20 records of the lot
    at the day of week and hour of the forecast window, most recent
    first; and the six most recent records of the lot. *)
Definition matched (db : Store) (now : Z) (id : string) (minutesAhead : Z)
    : list HistoricalData.t :=
  let targetTime := now + minutesAhead * 60000 in
  HistoricalData.find_pattern (history db) id (getDay targetTime) (getHours targetTime) 20.

Definition recent (db : Store) (id : string) : list HistoricalData.t :=
  HistoricalData.find_recent (history db) id 6.

Definition available (records : list HistoricalData.t) : list float :=
  List.map (fun record => Z2F (HistoricalData.availableSpots record)) records.

(** The bound on a count. *)
Definition within_bounds (lot : ParkingLot.t) : Prop :=
  0 <= ParkingLot.availableSpots lot <= ParkingLot.totalSpots lot.

(** The lots of a cycle up to the first whose [save] fails. *)
Fixpoint savedPrefix (fails : string -> bool) (all : list ParkingLot.t)
    : list ParkingLot.t :=
  match all with
  | [] => []
  | lot :: rest =>
      if fails (ParkingLot._id lot) then [] else lot :: savedPrefix fails rest
  end.

(** A lot perturbed by one pass of the cycle at time [now] with the
    draw [r]: the count moves by [floor(7 r) - 3] and is clamped to
    [0, totalSpots]. *)
Definition perturbed (now : Z) (r : Q) (lot : ParkingLot.t) : ParkingLot.t :=
  ParkingLot.mk (ParkingLot._id lot) (ParkingLot.name lot) (ParkingLot.totalSpots lot)
    (Z.max 0 (Z.min (ParkingLot.totalSpots lot)
                    (ParkingLot.availableSpots lot + (Math_floor (r * 7) - 3))))
    (ParkingLot.location lot) (ParkingLot.sensors lot) now.

(** The lots of a cycle up to the first whose [save] fails, each
    perturbed with its draw: a pass takes two draws, the first for the
    perturbation. *)
Fixpoint perturbedPrefix (fails : string -> bool) (now : Z) (draw : nat -> Q)
    (cursor : nat) (all : list ParkingLot.t) : list ParkingLot.t :=
  match all with
  | [] => []
  | lot :: rest =>
      if fails (ParkingLot._id lot) then []
      else perturbed now (draw cursor) lot
           :: perturbedPrefix fails now draw (S (S cursor)) rest
  end.

(** The change event of a lot that has been written. *)
Definition announcement (lot : ParkingLot.t) : ParkingUpdate.t :=
  ParkingUpdate.mk (ParkingLot._id lot) (ParkingLot.availableSpots lot)
                   (ParkingLot.lastUpdate lot).

(** The store after the given lots have been written, in order. *)
Definition persisted (written all : list ParkingLot.t) : list ParkingLot.t :=
  fold_left (fun stored lot => persist lot stored) written all.

(** The trend as the specification words it: the mean of the three
    latest of the recent records minus the mean of the three before
    them. *)
Definition trend (recentRecords : list HistoricalData.t) : float :=
  (mean (available (take 3 recentRecords))
   - mean (available (take 3 (drop 3 recentRecords))))%float.

(** What of a transformed element the inputs alone decide. *)
Definition shape (lot : Facility.t) : string * string * Location :=
  (Facility.id lot, Facility.name lot, Facility.location lot).

Definition shapeOf (fallbackLat fallbackLng : float) (el : Element) (idx : nat)
    : string * string * Location :=
  ("osm-" +:+ pretty (el_id el),
   match tag el "name" with
   | Some (String c s) => String c s
   | _ => "Parking Lot " +:+ pretty (idx + 1)%nat
   end,
   mkLocation
     (default fallbackLat
        (or_else (or_else (el_lat el) (el_center el ≫= center_lat)) (Some fallbackLat)))
     (default fallbackLng
        (or_else (or_else (el_lon el) (el_center el ≫= center_lon)) (Some fallbackLng)))).

Fixpoint shapesFrom (fallbackLat fallbackLng : float) (elements : list Element)
    (idx : nat) : list (string * string * Location) :=
  match elements with
  | [] => []
  | el :: rest =>
      shapeOf fallbackLat fallbackLng el idx
      :: shapesFrom fallbackLat fallbackLng rest (S idx)
  end.

(** The outcome of attempt [j] of a call that started when [base]
    requests had been sent, and the error it leaves in [lastErr]. *)
Definition attempt (net : Net) (base : nat) (mirrors : list string) (query : Query)
    (j : nat) : AxiosResult :=
  settle net (base + j)%nat (mkRequest (mirrors !! (j mod length mirrors)%nat) query).

Definition failure (res : AxiosResult) : option Exn :=
  match res with
  | Resolved status _ =>
      if (200 <=? status) && (status <? 300) then None
      else Some (Error ("Overpass non-2xx: " +:+ pretty status))
  | Rejected err => Some err
  end.

Definition payload (res : AxiosResult) : option (list Element) :=
  match res with
  | Resolved _ elements => elements
  | Rejected _ => None
  end.

Definition contacted (mirrors : list string) (query : Query) (from count : nat)
    : list Request :=
  List.map (fun j => mkRequest (mirrors !! (j mod length mirrors)%nat) query)
           (seq from count).

(** What a run of the retry loop from attempt [i] with [todo] attempts
    left has done when it made [k] attempts: it sent the requests of
    the attempts [i .. i+k-1] in order, all but the last of them
    failed, and either the last succeeded and its answer is returned,
    or the attempts are used up and the last error is thrown
    ([lastErr] when there was no attempt at all). *)
Definition made_attempts (mirrors : list string) (query : Query)
    (net : Net) (base i todo : nat) (lastErr : Exn)
    (run : Outcome (option (list Element)) * Net) (k : nat) : Prop :=
  (k <= todo)%nat /\
  sent (snd run) = sent net ++ contacted mirrors query i k /\
  (forall j, (i <= j < i + k - 1)%nat ->
             failure (attempt net base mirrors query j) <> None) /\
  (((1 <= k)%nat /\
    failure (attempt net base mirrors query (i + k - 1)) = None /\
    fst run = Returned (payload (attempt net base mirrors query (i + k - 1))))
   \/
   (k = todo /\
    exists e, fst run = Thrown e /\
              ((k = 0%nat /\ e = lastErr) \/
               ((1 <= k)%nat /\
                failure (attempt net base mirrors query (i + k - 1)) = Some e)))).

End Spec.

(** ** More of the file, and the vocabulary of its properties *)

(** The key under which [fetchOpenStreetMapParkingById] caches an id:
    the id with its [osm-] prefix. *)
Definition osmKey (osmId : string) : string :=
  if starts_with_osm osmId then osmId else "osm-" +:+ osmId.

(** The delays [500 * 2^i] of the attempts [from, from+1, ...]. *)
Definition backoff (from count : nat) : list Z :=
  List.map (fun i => 500 * 2 ^ Z.of_nat i) (seq from count).



(** [app.get('/api/parking-lots/:id/history')]; [limit] is
    [req.query.limit].  MongoDB reads a negative limit as its absolute
    value.  The route does not look the lot up: an id that names no lot
    is answered like a lot without history. *)
Definition get_parking_lot_history (db : Store) (id : string) (limit : option string)
    : Z * list HistoricalData.t :=
  let limit := parseInt_or limit 100 in
  (200, HistoricalData.find_recent (history db) id (Z.abs_nat limit)).


(** The snapshot [recordCurrentState] writes for a lot. *)
Definition snapshot (now : Z) (lot : ParkingLot.t) : HistoricalData.t :=
  HistoricalData.mk (ParkingLot._id lot) now (ParkingLot.availableSpots lot)
    ((Z2F (ParkingLot.totalSpots lot) - Z2F (ParkingLot.availableSpots lot))
     / Z2F (ParkingLot.totalSpots lot) * 100)%float
    (getDay now) (getHours now) false.

(** A lot of the database as the route of the real lots serves it when
    Overpass cannot be reached: the stored fields as they are, a
    confidence of 90 and a predicted availability that is not
    negative. *)
Definition served_locally (lot : ParkingLot.t) (made : Facility.t) : Prop :=
  Facility.id made = ParkingLot._id lot
  /\ Facility.name made = ParkingLot.name lot
  /\ Facility.totalSpots made = ParkingLot.totalSpots lot
  /\ Facility.availableSpots made = ParkingLot.availableSpots lot
  /\ Facility.location made = ParkingLot.location lot
  /\ Facility.lastUpdate made = ParkingLot.lastUpdate lot
  /\ Facility.confidence made = 90
  /\ 0 <= Facility.predictedAvailability made.

(* END OF FURTHER DEFINITIONS *)

(** * Properties *)

(** ** The embedding on concrete inputs *)

Example parseInt_samples :
  List.map parseInt [Some "120"; Some "  42 spaces"; Some "-5"; Some "0x1F";
                     Some "about 30"; Some ""; None]
  = [Some 120; Some 42; Some (-5); Some 31; None; None; None].
Proof. reflexivity. Qed.

Example Math_round_samples :
  List.map Math_round [43.1; 2.5; -2.5; 96.66666; 0.49999999999999994]%float
  = [43; 3; -2; 97; 0]%float.
Proof. vm_compute. reflexivity. Qed.

Example toFixed_samples :
  (toFixed 82.6027 1, toFixed 0.05 1, toFixed (-2.45) 1, toFixed 33.4242 3, toFixed nan 1)
  = ("82.6", "0.1", "-2.5", "33.424", "NaN").
Proof. vm_compute. reflexivity. Qed.

Example areaKey_sample : areaKey 33.4242 (-111.9281) 5000 = "33.424,-111.928,5000".
Proof. vm_compute. reflexivity. Qed.

Example stats_of_seed :
  get_stats (mkStore seedLots []) = mkResponse 200 (StatsJson 4 730 127 82.6).
Proof. vm_compute. reflexivity. Qed.

Example scenario_matches_twenty :
  length (Spec.matched scenarioStore scenarioNow "A" 30) = 20%nat
  /\ Spec.mean (Spec.available (Spec.matched scenarioStore scenarioNow "A" 30)) = 50%float
  /\ Spec.stdDev (Spec.available (Spec.matched scenarioStore scenarioNow "A" 30)) = 5%float
  /\ ParkingPredictor.trendOf (Spec.recent scenarioStore "A") = (-4)%float.
Proof. repeat split; vm_compute; reflexivity. Qed.

Example callOverpass_third_mirror :
  List.map url (sent (snd (callOverpass (IdQuery "4242") 3 flakyNet)))
  = List.map Some OVERPASS_MIRRORS
  /\ slept (snd (callOverpass (IdQuery "4242") 3 flakyNet)) = [500; 1000]
  /\ fst (callOverpass (IdQuery "4242") 3 flakyNet) = Returned (Some [sampleElement]).
Proof. repeat split; vm_compute; reflexivity. Qed.

Example background_job_on_seed :
  List.map (fun e => (ParkingUpdate.lotId e, ParkingUpdate.availableSpots e))
           (emitted (backgroundJob noFaults 0 seededWorld))
  = [("A", 48); ("B", 15); ("C", 68); ("D", 8)].
Proof. vm_compute. reflexivity. Qed.

(** ** Binary64 facts used below *)

Lemma float_mul_comm (x y : float) : (x * y = y * x)%float.
Proof.
  apply Prim2SF_inj. rewrite !mul_spec. unfold SF64mul, SFmul.
  destruct (Prim2SF x) as [sx|sx| |sx mx ex], (Prim2SF y) as [sy|sy| |sy my ey];
    try reflexivity; rewrite (xorb_comm sx sy); try reflexivity.
  now rewrite (Pos.mul_comm mx my), (Z.add_comm ex ey).
Qed.

(** A Number above 95 is above 70. *)
Lemma above_95_above_70 (x : float) :
  (95 <? x)%float = true -> (70 <? x)%float = true.
Proof.
  rewrite !FloatAxioms.ltb_spec.
  replace (Prim2SF 95) with (S754_finite false 6685030696878080 (-46))
    by (vm_compute; reflexivity).
  replace (Prim2SF 70) with (S754_finite false 4925812092436480 (-46))
    by (vm_compute; reflexivity).
  unfold SFltb, SFcompare.
  destruct (Prim2SF x) as [s|s| |s m e]; try (destruct s); try discriminate; try reflexivity.
  change (IntDef.Z.compare (-46) e) with (Z.compare (-46) e).
  change (PosDef.Pos.compare_cont Eq) with Pos.compare.
  destruct (Z.compare (-46) e); try discriminate; try reflexivity.
  destruct (Pos.compare_spec 6685030696878080 m) as [ | Hlt | ]; try discriminate.
  intros _.
  assert (Hm : (4925812092436480 < m)%positive) by lia.
  apply Pos.compare_lt_iff in Hm. now rewrite Hm.
Qed.

(** Clamping a confidence from above then from below, or from below
    then from above, gives the same Number. *)
Lemma confidence_clamp (x : float) :
  Math_min 95 (Math_max 70 x) = Spec.clamp x 70 95.
Proof.
  unfold Spec.clamp.
  assert (Hmax : forall y, Math_max 70 y =
            if is_nan y then nan else if (70 <? y)%float then y else 70%float).
  { intros y. unfold Math_max.
    replace (is_nan 70) with false by (vm_compute; reflexivity).
    replace (is_neg_zero 70) with false by (vm_compute; reflexivity).
    simpl. destruct (is_nan y), (70 <? y)%float, (y <? 70)%float; reflexivity. }
  assert (Hmin : forall y, Math_min 95 y =
            if is_nan y then nan else if (95 <? y)%float then 95%float else y).
  { intros y. unfold Math_min.
    replace (is_nan 95) with false by (vm_compute; reflexivity).
    replace (is_neg_zero 95) with false by (vm_compute; reflexivity).
    simpl. destruct (is_nan y), (95 <? y)%float, (y <? 95)%float; reflexivity. }
  rewrite (Hmax x), (Hmin x).
  destruct (is_nan x) eqn:Hnan.
  - vm_compute; reflexivity.
  - destruct (95 <? x)%float eqn:H95.
    + rewrite (above_95_above_70 x H95), Hmin, Hnan, H95. vm_compute; reflexivity.
    + destruct (70 <? x)%float eqn:H70.
      * now rewrite Hmin, Hmax, Hnan, H95, H70.
      * rewrite Hmax, Hnan, H70. vm_compute; reflexivity.
Qed.

(** The two sums of the source are sums of the list of counts. *)
Lemma reduce_add_map {A : Type} (f : A -> float) (l : list A) (init : float) :
  reduce (fun sum record => (sum + f record)%float) init l
  = fold_left PrimFloat.add (List.map f l) init.
Proof.
  unfold reduce. revert init.
  induction l as [|a l IH]; intros init; simpl; [reflexivity | apply IH].
Qed.

Lemma sumAvailable_sum (records : list HistoricalData.t) :
  ParkingPredictor.sumAvailable records = Spec.sum (Spec.available records).
Proof. apply reduce_add_map. Qed.

(** With six recent records or more the trend of the code is the mean
    of the three latest minus the mean of the three before them. *)
Lemma trendOf_six (a b c d e f : HistoricalData.t) (older : list HistoricalData.t) :
  ParkingPredictor.trendOf (a :: b :: c :: d :: e :: f :: older)
  = (Spec.mean (Spec.available [a; b; c]) - Spec.mean (Spec.available [d; e; f]))%float.
Proof.
  unfold ParkingPredictor.trendOf, Spec.mean. cbn [length Nat.leb slice take drop Nat.sub].
  rewrite !sumAvailable_sum. cbn [Spec.available List.map length].
  replace (Z2F (Z.of_nat 3)) with 3%float by (vm_compute; reflexivity).
  reflexivity.
Qed.

Lemma trendOf_full (recentData : list HistoricalData.t) :
  (6 <= length recentData)%nat ->
  ParkingPredictor.trendOf recentData = Spec.trend recentData.
Proof.
  destruct recentData as [|a [|b [|c [|d [|e [|f older]]]]]]; cbn [length]; try lia.
  intros _. rewrite trendOf_six. reflexivity.
Qed.

(** The forecast on a matched history, with the trend as the code
    computes it. *)
Lemma predictAvailability_matched
    (db : Store) (now : Z) (r : Q) (id : string) (minutesAhead : Z) (lot : ParkingLot.t) :
  ParkingLot.findById (lots db) id = Some lot ->
  Spec.matched db now id minutesAhead <> [] ->
  ParkingPredictor.predictAvailability db now r id minutesAhead
  = Returned (Spec.forecast
                (Z2F (ParkingLot.totalSpots lot))
                (Z2F (ParkingLot.availableSpots lot))
                (Spec.mean (Spec.available (Spec.matched db now id minutesAhead)))
                (Spec.stdDev (Spec.available (Spec.matched db now id minutesAhead)))
                (ParkingPredictor.trendOf (Spec.recent db id))).
Proof.
  intros Hlot Hmatched.
  unfold ParkingPredictor.predictAvailability. rewrite Hlot.
  fold (Spec.matched db now id minutesAhead). fold (Spec.recent db id).
  destruct (Spec.matched db now id minutesAhead) as [|first others] eqn:Hm;
    [congruence | clear Hmatched].
  set (records := first :: others).
  change (length records =? 0)%nat with false. cbv iota.
  unfold Spec.forecast, Spec.stdDev, Spec.mean.
  rewrite sumAvailable_sum, confidence_clamp.
  rewrite (reduce_add_map
             (fun record => Math_pow2 (Z2F (HistoricalData.availableSpots record)
                                       - Spec.sum (Spec.available records)
                                         / Z2F (Z.of_nat (length records))))).
  rewrite (float_mul_comm 0.6), (float_mul_comm 0.3), (float_mul_comm 0.1).
  rewrite !length_map.
  unfold Spec.clamp, Spec.sum, Spec.available, Math_pow2.
  rewrite !List.map_map, !length_map.
  reflexivity.
Qed.

(** ** C3: the forecast on a matched history *)

(** C3. When at least one historical record matches the day of week and
    the hour of the forecast window and the lot has six records or more,
    [predictAvailability] returns the rounded blend
    [0.6 * avg + 0.3 * current + 0.1 * trend] clamped to
    [0, totalSpots], the trend being the mean of the three latest
    records minus the mean of the three before them, and the rounded
    value of [100 - (stdDev / totalSpots) * 100] clamped to [70, 95], the
    mean and the standard deviation being those of the matched records;
    the scenario (150 spots, 45 free, matched mean 50 with standard
    deviation 5, trend -4) gives 43 spots with confidence 95.  With
    fewer than six records the sums of the two groups are still divided
    by 3: lot B (200 spots, 12 free) with four records of 48 free spots,
    all matched, has a trend of 0 and a blend of 32, and the code
    computes a trend of 32 and returns 36. *)
Theorem predictAvailability_blends_history :
  (forall (db : Store) (now : Z) (r : Q) (id : string) (minutesAhead : Z)
          (lot : ParkingLot.t),
      ParkingLot.findById (lots db) id = Some lot ->
      Spec.matched db now id minutesAhead <> [] ->
      (6 <= length (Spec.recent db id))%nat ->
      ParkingPredictor.predictAvailability db now r id minutesAhead
      = Returned (Spec.forecast
                    (Z2F (ParkingLot.totalSpots lot))
                    (Z2F (ParkingLot.availableSpots lot))
                    (Spec.mean (Spec.available (Spec.matched db now id minutesAhead)))
                    (Spec.stdDev (Spec.available (Spec.matched db now id minutesAhead)))
                    (Spec.trend (Spec.recent db id))))
  /\ (ParkingLot.findById (lots scenarioStore) "A"
      = Some (seedLot "A" "North Campus Lot A" 150 45 33.4242 (-111.9281))
      /\ length (Spec.matched scenarioStore scenarioNow "A" 30) = 20%nat
      /\ Spec.mean (Spec.available (Spec.matched scenarioStore scenarioNow "A" 30)) = 50%float
      /\ Spec.stdDev (Spec.available (Spec.matched scenarioStore scenarioNow "A" 30)) = 5%float
      /\ Spec.trend (Spec.recent scenarioStore "A") = (-4)%float
      /\ ParkingPredictor.predictAvailability scenarioStore scenarioNow 0 "A" 30
         = Returned {| predictedSpots := 43%float; confidence := 95%float |})
  /\ (ParkingLot.findById (lots flatStore) "B"
      = Some (seedLot "B" "South Campus Lot B" 200 12 33.4225 (-111.9265))
      /\ List.map HistoricalData.availableSpots (Spec.matched flatStore scenarioNow "B" 30)
         = [48; 48; 48; 48]
      /\ List.map HistoricalData.availableSpots (Spec.recent flatStore "B")
         = [48; 48; 48; 48]
      /\ Spec.trend (Spec.recent flatStore "B") = 0%float
      /\ Spec.forecast 200 12
           (Spec.mean (Spec.available (Spec.matched flatStore scenarioNow "B" 30)))
           (Spec.stdDev (Spec.available (Spec.matched flatStore scenarioNow "B" 30)))
           (Spec.trend (Spec.recent flatStore "B"))
         = {| predictedSpots := 32%float; confidence := 95%float |}
      /\ ParkingPredictor.trendOf (Spec.recent flatStore "B") = 32%float
      /\ ParkingPredictor.predictAvailability flatStore scenarioNow 0 "B" 30
         = Returned {| predictedSpots := 36%float; confidence := 95%float |}).
Proof.
  split; [|split].
  - intros db now r id minutesAhead lot Hlot Hmatched Hfull.
    rewrite <- (trendOf_full _ Hfull).
    now apply predictAvailability_matched.
  - repeat split; vm_compute; reflexivity.
  - repeat split; vm_compute; reflexivity.
Qed.

(** ** C8: the estimate without matching history *)

Lemma floor_of_draw (r : Q) (scale shift : Z) :
  unit_draw r -> 0 <= scale ->
  shift <= Math_floor (r * inject_Z scale + inject_Z shift) <= scale + shift.
Proof.
  intros [Hlo Hhi] Hscale. unfold Math_floor.
  assert (Hs : (0 <= inject_Z scale)%Q)
    by (change 0%Q with (inject_Z 0); rewrite <- Zle_Qle; assumption).
  assert (Hlow : (inject_Z shift <= r * inject_Z scale + inject_Z shift)%Q).
  { rewrite <- (Qplus_0_l (inject_Z shift)) at 1.
    apply Qplus_le_compat; [|apply Qle_refl].
    apply Qmult_le_0_compat; assumption. }
  assert (Hhigh : (r * inject_Z scale + inject_Z shift <= inject_Z (scale + shift))%Q).
  { rewrite inject_Z_plus. apply Qplus_le_compat; [|apply Qle_refl].
    rewrite <- (Qmult_1_l (inject_Z scale)) at 2.
    apply Qmult_le_compat_r; [apply Qlt_le_weak|]; assumption. }
  apply Qfloor_resp_le in Hlow, Hhigh.
  rewrite Qfloor_Z in Hlow, Hhigh. lia.
Qed.

(** C8. When the lot exists and no historical record matches the day of
    week and hour of the forecast window, the confidence is exactly 60
    and the predicted count is [max(0, current + d)] for a delta [d] with
    [|d| <= 5]. *)
Theorem predictAvailability_without_history
    (db : Store) (now : Z) (r : Q) (id : string) (minutesAhead : Z) (lot : ParkingLot.t) :
  unit_draw r ->
  ParkingLot.findById (lots db) id = Some lot ->
  Spec.matched db now id minutesAhead = [] ->
  exists d : Z,
    Z.abs d <= 5 /\
    ParkingPredictor.predictAvailability db now r id minutesAhead
    = Returned {| predictedSpots := Z2F (Z.max 0 (ParkingLot.availableSpots lot + d));
                  confidence := 60%float |}.
Proof.
  intros Hr Hlot Hnone.
  exists (Math_floor (r * 10 - 5)). split.
  - pose proof (floor_of_draw r 10 (-5) Hr ltac:(lia)) as Hd.
    change (r * inject_Z 10 + inject_Z (-5))%Q with (r * 10 - 5)%Q in Hd. lia.
  - unfold ParkingPredictor.predictAvailability. rewrite Hlot.
    fold (Spec.matched db now id minutesAhead). now rewrite Hnone.
Qed.

Lemma predictAvailability_without_history_witness :
  exists d : Z,
    Z.abs d <= 5 /\
    ParkingPredictor.predictAvailability scenarioStore scenarioNow (95 # 100) "B" 30
    = Returned {| predictedSpots := Z2F (Z.max 0 (12 + d)); confidence := 60%float |}.
Proof.
  refine (predictAvailability_without_history scenarioStore scenarioNow (95 # 100) "B" 30
            (seedLot "B" "South Campus Lot B" 200 12 33.4225 (-111.9265)) _ _ _).
  - split; [discriminate | reflexivity].
  - reflexivity.
  - vm_compute. reflexivity.
Defined.

(** ** C5: a forecast for a lot that does not exist *)

(** C5. For an id that names no lot, [predictAvailability] throws
    [Error('Parking lot not found')] and returns no prediction; the
    predict route answers it with status 500, where the route of the lot
    itself answers 404. *)
Theorem predict_missing_lot_answers_500
    (db : Store) (now : Z) (r : Q) (id : string) (minutes : option string) :
  ParkingLot.findById (lots db) id = None ->
  ParkingPredictor.predictAvailability db now r id (parseInt_or minutes 30)
  = Thrown (Error "Parking lot not found")
  /\ get_parking_lot_predict db now r id minutes
     = mkResponse 500 (ErrorJson "Parking lot not found")
  /\ get_parking_lot db now r id = mkResponse 404 (ErrorJson "Parking lot not found").
Proof.
  intros Hnone.
  unfold get_parking_lot_predict, get_parking_lot, ParkingPredictor.predictAvailability.
  rewrite Hnone. repeat split; reflexivity.
Qed.

Lemma predict_missing_lot_answers_500_witness :
  status (get_parking_lot_predict scenarioStore scenarioNow 0 "E" None) = 500
  /\ status (get_parking_lot scenarioStore scenarioNow 0 "E") = 404.
Proof.
  destruct (predict_missing_lot_answers_500 scenarioStore scenarioNow 0 "E" None)
    as (_ & Hpredict & Hlot).
  - reflexivity.
  - rewrite Hpredict, Hlot. split; reflexivity.
Defined.

(** ** C10: the statistics of an empty store *)

(** C10. With no lot in the store the statistics route answers 0 lots,
    0 spots, 0 available, and an average occupancy that is NaN, which
    JSON writes as null. *)
Theorem stats_of_empty_store (records : list HistoricalData.t) :
  get_stats (mkStore [] records) = mkResponse 200 (StatsJson 0 0 0 nan)
  /\ json_number nan = None.
Proof. split; vm_compute; reflexivity. Qed.

(** ** C6: the bound on the predicted availability *)

(** C6. The predicted availability can exceed the capacity: a full lot
    of 150 spots without matching history is forecast at 154 when the
    draw is 0.95, and the transformer gives an element of capacity 5 a
    predicted availability of 13 when its draws are 0 and 0.97. *)
Theorem predicted_availability_exceeds_capacity :
  ParkingPredictor.predictAvailability (mkStore [fullLot] []) 0 (95 # 100) "F" 30
  = Returned {| predictedSpots := 154%float; confidence := 60%float |}
  /\ List.map (fun lot => (Facility.totalSpots lot, Facility.availableSpots lot,
                            Facility.predictedAvailability lot))
       (fst (mapOverpassToParkingLots [smallElement] 33.4242 (-111.9281) 0 lateDraws))
     = [(5, 4, 13)].
Proof. split; vm_compute; reflexivity. Qed.

(** ** C7: the order in which the mirrors are contacted *)

Lemma contacted_step (mirrors : list string) (query : Query) (i k : nat) :
  Spec.contacted mirrors query i (S k)
  = mkRequest (mirrors !! (i mod length mirrors)%nat) query
    :: Spec.contacted mirrors query (S i) k.
Proof. reflexivity. Qed.

(** The retry loop makes some number of attempts in the sense of
    [Spec.made_attempts]. *)
Lemma callOverpass_from_trace (mirrors : list string) (query : Query) (todo : nat) :
  forall (i : nat) (lastErr : Exn) (net : Net) (base : nat),
    length (sent net) = (base + i)%nat ->
    exists k : nat,
      Spec.made_attempts mirrors query net base i todo lastErr
        (callOverpass_from mirrors query todo i lastErr net) k.
Proof.
  induction todo as [|todo IH]; intros i lastErr net base Hbase.
  - exists 0%nat. unfold Spec.made_attempts. simpl. rewrite app_nil_r.
    repeat split; [lia | intros j Hj; lia |].
    right. split; [reflexivity|]. exists lastErr. split; [reflexivity|]. left. now split.
  - set (rq := mkRequest (mirrors !! (i mod length mirrors)%nat) query).
    assert (Hfail : forall err,
      Spec.failure (Spec.attempt net base mirrors query i) = Some err ->
      exists k : nat,
        Spec.made_attempts mirrors query net base i (S todo) lastErr
          (callOverpass_from mirrors query todo (S i) err
             (setTimeout (500 * 2 ^ Z.of_nat i) (snd (axios_post rq net)))) k).
    { intros err Herr.
      set (net1 := setTimeout (500 * 2 ^ Z.of_nat i) (snd (axios_post rq net))).
      assert (Hbase1 : length (sent net1) = (base + S i)%nat).
      { unfold net1. simpl. rewrite length_app. simpl. lia. }
      destruct (IH (S i) err net1 base Hbase1) as (k & Hk & Hsent & Hbefore & Hend).
      change (Spec.attempt net1 base mirrors query) with (Spec.attempt net base mirrors query) in *.
      exists (S k). split; [lia|]. split.
      { rewrite Hsent, contacted_step. unfold net1. simpl. now rewrite <- app_assoc. }
      split.
      { intros j Hj. destruct (decide (j = i)) as [->|Hne].
        - rewrite Herr. discriminate.
        - apply Hbefore. lia. }
      destruct Hend as [(Hk1 & Hok & Hret) | (Hkt & e & Hthrown & Hlast)].
      - left. replace (i + S k - 1)%nat with (S i + k - 1)%nat by lia.
        split; [lia|]. split; assumption.
      - right. split; [lia|]. exists e. split; [assumption|]. right. split; [lia|].
        destruct Hlast as [(Hk0 & ->) | (Hk1 & Hlast)].
        + rewrite Hk0. replace (i + 1 - 1)%nat with i by lia. assumption.
        + replace (i + S k - 1)%nat with (S i + k - 1)%nat by lia. assumption. }
    assert (Hresp : fst (axios_post rq net) = Spec.attempt net base mirrors query i).
    { unfold axios_post, Spec.attempt. simpl. now rewrite Hbase. }
    cbn [callOverpass_from]. fold rq.
    destruct (axios_post rq net) as [resp net0] eqn:Hpost.
    simpl in Hresp, Hfail. subst resp.
    destruct (Spec.attempt net base mirrors query i) as [status elements | err] eqn:Hattempt.
    + destruct ((200 <=? status) && (status <? 300)) eqn:H2xx.
      * exists 1%nat. split; [lia|]. split.
        { simpl. apply (f_equal snd) in Hpost. simpl in Hpost. now subst net0. }
        split; [intros j Hj; lia|].
        left. replace (i + 1 - 1)%nat with i by lia. rewrite Hattempt.
        simpl. rewrite H2xx. repeat split. lia.
      * apply Hfail. simpl. now rewrite H2xx.
    + apply Hfail. reflexivity.
Qed.

(** C7. With [N >= 1] mirrors and [A >= 1] attempts, [callOverpass]
    sends its requests to the mirrors [0, 1, ..., k-1] modulo [N] in
    that order, starting at mirror 0, for some [k] between 1 and [A];
    every attempt before the last one made failed; either the last one
    was answered 2xx and its data is returned, or all [A] attempts
    failed and the error of the last one is thrown. *)
Theorem callOverpass_round_robin
    (mirrors : list string) (query : Query) (attempts : nat) (net : Net) :
  (1 <= length mirrors)%nat ->
  (1 <= attempts)%nat ->
  exists k : nat,
    (1 <= k <= attempts)%nat /\
    sent (snd (callOverpass_on mirrors query attempts net))
    = sent net ++ Spec.contacted mirrors query 0 k /\
    Forall (fun rq => is_Some (url rq)) (Spec.contacted mirrors query 0 k) /\
    (forall j, (j < k - 1)%nat ->
       Spec.failure (Spec.attempt net (length (sent net)) mirrors query j) <> None) /\
    ((Spec.failure (Spec.attempt net (length (sent net)) mirrors query (k - 1)) = None /\
      fst (callOverpass_on mirrors query attempts net)
      = Returned (Spec.payload (Spec.attempt net (length (sent net)) mirrors query (k - 1))))
     \/
     (k = attempts /\
      exists e,
        Spec.failure (Spec.attempt net (length (sent net)) mirrors query (k - 1)) = Some e /\
        fst (callOverpass_on mirrors query attempts net) = Thrown e)).
Proof.
  intros Hmirrors Hattempts.
  destruct (callOverpass_from_trace mirrors query attempts 0 undefined net
              (length (sent net)) ltac:(lia))
    as (k & Hk & Hsent & Hbefore & Hend).
  fold (callOverpass_on mirrors query attempts net) in Hsent, Hend.
  simpl in Hbefore, Hend.
  assert (Hk1 : (1 <= k)%nat) by (destruct Hend as [(? & _) | (-> & _)]; lia).
  exists k. split; [lia|]. split; [exact Hsent|]. split.
  { unfold Spec.contacted. apply Forall_map, Forall_forall. intros j _. simpl.
    apply lookup_lt_is_Some, Nat.mod_upper_bound. lia. }
  split.
  { intros j Hj. apply Hbefore. lia. }
  destruct Hend as [(_ & Hok & Hret) | (Hall & e & Hthrown & Hlast)].
  - left. split; assumption.
  - right. split; [exact Hall|]. exists e.
    destruct Hlast as [(Hk0 & _) | (_ & Hlast)]; [lia|]. split; assumption.
Qed.

Lemma callOverpass_round_robin_witness :
  exists k : nat,
    (1 <= k <= 3)%nat /\
    sent (snd (callOverpass_on OVERPASS_MIRRORS (IdQuery "4242") 3 flakyNet))
    = sent flakyNet ++ Spec.contacted OVERPASS_MIRRORS (IdQuery "4242") 0 k /\
    Forall (fun rq => is_Some (url rq))
           (Spec.contacted OVERPASS_MIRRORS (IdQuery "4242") 0 k) /\
    (forall j, (j < k - 1)%nat ->
       Spec.failure (Spec.attempt flakyNet (length (sent flakyNet))
                       OVERPASS_MIRRORS (IdQuery "4242") j) <> None) /\
    ((Spec.failure (Spec.attempt flakyNet (length (sent flakyNet))
                      OVERPASS_MIRRORS (IdQuery "4242") (k - 1)) = None /\
      fst (callOverpass_on OVERPASS_MIRRORS (IdQuery "4242") 3 flakyNet)
      = Returned (Spec.payload (Spec.attempt flakyNet (length (sent flakyNet))
                                  OVERPASS_MIRRORS (IdQuery "4242") (k - 1))))
     \/
     (k = 3%nat /\
      exists e,
        Spec.failure (Spec.attempt flakyNet (length (sent flakyNet))
                        OVERPASS_MIRRORS (IdQuery "4242") (k - 1)) = Some e /\
        fst (callOverpass_on OVERPASS_MIRRORS (IdQuery "4242") 3 flakyNet) = Thrown e)).
Proof.
  apply (callOverpass_round_robin OVERPASS_MIRRORS (IdQuery "4242") 3 flakyNet);
    simpl; lia.
Defined.

(** ** The background job and the update route *)

(** What [recordCurrentState] leaves alone. *)
Lemma recordCurrentState_keeps (faults : Faults) (now : Z) (id : string) (w : World) :
  lots (store (recordCurrentState faults now id w)) = lots (store w)
  /\ emitted (recordCurrentState faults now id w) = emitted w.
Proof.
  unfold recordCurrentState.
  destruct (ParkingLot.findById (lots (store w)) id); [|now split].
  destruct (historySaveFails faults id); now split.
Qed.

Lemma recordCurrentState_random (faults : Faults) (now : Z) (id : string) (w : World) :
  random (recordCurrentState faults now id w) = random w.
Proof.
  unfold recordCurrentState.
  destruct (ParkingLot.findById (lots (store w)) id); [|reflexivity].
  now destruct (historySaveFails faults id).
Qed.

Lemma persist_either (lot x : ParkingLot.t) (all : list ParkingLot.t) :
  In x (persist lot all) -> x = lot \/ In x all.
Proof.
  unfold persist. rewrite in_map_iff. intros (l & Hx & Hl).
  destruct (bool_decide (ParkingLot._id l = ParkingLot._id lot)); subst; auto.
Qed.

Lemma persist_other (lot x : ParkingLot.t) (all : list ParkingLot.t) :
  In x all -> ParkingLot._id x <> ParkingLot._id lot -> In x (persist lot all).
Proof.
  intros Hin Hid. unfold persist. apply in_map_iff. exists x. split; [|exact Hin].
  rewrite bool_decide_eq_false_2; [reflexivity | exact Hid].
Qed.

Lemma persist_ids (lot : ParkingLot.t) (all : list ParkingLot.t) :
  List.map ParkingLot._id (persist lot all) = List.map ParkingLot._id all.
Proof.
  unfold persist. rewrite List.map_map. apply List.map_ext. intros l.
  destruct (bool_decide (ParkingLot._id l = ParkingLot._id lot)) eqn:Hid; [|reflexivity].
  apply bool_decide_eq_true in Hid. now symmetry.
Qed.

Lemma findById_persist (lot found : ParkingLot.t) (all : list ParkingLot.t) :
  ParkingLot.findById all (ParkingLot._id lot) = Some found ->
  ParkingLot.findById (persist lot all) (ParkingLot._id lot) = Some lot.
Proof.
  unfold ParkingLot.findById, persist.
  induction all as [|l rest IH]; [discriminate|].
  cbn [List.find List.map].
  destruct (bool_decide (ParkingLot._id l = ParkingLot._id lot)) eqn:Hid.
  - intros _. cbn [List.find]. now rewrite bool_decide_eq_true_2.
  - cbn [List.find]. rewrite Hid. exact IH.
Qed.

Lemma findById_persist_other (lot : ParkingLot.t) (all : list ParkingLot.t) (id : string) :
  ParkingLot._id lot <> id ->
  ParkingLot.findById (persist lot all) id = ParkingLot.findById all id.
Proof.
  intros Hid. unfold ParkingLot.findById, persist.
  induction all as [|l rest IH]; [reflexivity|].
  cbn [List.find List.map].
  destruct (bool_decide (ParkingLot._id l = ParkingLot._id lot)) eqn:Hsame.
  - apply bool_decide_eq_true in Hsame.
    rewrite !bool_decide_eq_false_2 by congruence. exact IH.
  - destruct (bool_decide (ParkingLot._id l = id)); [reflexivity | exact IH].
Qed.

Lemma findById_present (all : list ParkingLot.t) (id : string) :
  In id (List.map ParkingLot._id all) ->
  exists found, ParkingLot.findById all id = Some found.
Proof.
  intros Hin. apply in_map_iff in Hin as (lot & Hid & Hlot).
  unfold ParkingLot.findById.
  destruct (List.find _ all) as [found|] eqn:Hfind; [now exists found|].
  exfalso. apply (find_none _ _ Hfind) in Hlot.
  now rewrite bool_decide_eq_true_2 in Hlot.
Qed.

Lemma findById_found (all : list ParkingLot.t) (id : string) (found : ParkingLot.t) :
  ParkingLot.findById all id = Some found -> ParkingLot._id found = id /\ In found all.
Proof.
  unfold ParkingLot.findById. intros Hfound. apply find_some in Hfound.
  destruct Hfound as [Hin Hid]. split; [|exact Hin]. now apply bool_decide_eq_true in Hid.
Qed.

(** The store after a sequence of writes. *)
Lemma persisted_either (written all : list ParkingLot.t) (x : ParkingLot.t) :
  In x (Spec.persisted written all) -> In x written \/ In x all.
Proof.
  unfold Spec.persisted. revert all.
  induction written as [|lot rest IH]; intros all Hin; [now right|].
  cbn [fold_left] in Hin. apply IH in Hin as [Hrest | Hin]; [left; now right|].
  apply persist_either in Hin as [-> | Hin]; [left; now left | now right].
Qed.

Lemma persisted_ids (written all : list ParkingLot.t) :
  List.map ParkingLot._id (Spec.persisted written all) = List.map ParkingLot._id all.
Proof.
  unfold Spec.persisted. revert all.
  induction written as [|lot rest IH]; intros all; [reflexivity|].
  cbn [fold_left]. rewrite IH. apply persist_ids.
Qed.

Lemma persisted_lookup_other (written all : list ParkingLot.t) (id : string) :
  ~ In id (List.map ParkingLot._id written) ->
  ParkingLot.findById (Spec.persisted written all) id = ParkingLot.findById all id.
Proof.
  unfold Spec.persisted. revert all.
  induction written as [|lot rest IH]; intros all Hfresh; [reflexivity|].
  cbn [fold_left List.map In] in *.
  rewrite IH by tauto. apply findById_persist_other. tauto.
Qed.

(** A lot that is written once is found afterwards under its id. *)
Lemma persisted_lookup (written : list ParkingLot.t) :
  forall (all : list ParkingLot.t) (lot : ParkingLot.t),
    List.NoDup (List.map ParkingLot._id written) ->
    In lot written ->
    In (ParkingLot._id lot) (List.map ParkingLot._id all) ->
    ParkingLot.findById (Spec.persisted written all) (ParkingLot._id lot) = Some lot.
Proof.
  induction written as [|first rest IH]; intros all lot Hnodup Hin Hid; [contradiction|].
  cbn [List.map] in Hnodup. apply List.NoDup_cons_iff in Hnodup as [Hfresh Hnodup].
  change (Spec.persisted (first :: rest) all)
    with (Spec.persisted rest (persist first all)).
  destruct Hin as [-> | Hin].
  - rewrite persisted_lookup_other by exact Hfresh.
    destruct (findById_present all _ Hid) as [found Hfound].
    exact (findById_persist lot found all Hfound).
  - apply IH; [exact Hnodup | exact Hin | now rewrite persist_ids].
Qed.

(** The lots that a cycle writes are the lots of the saved prefix,
    perturbed. *)
Lemma perturbedPrefix_saved (fails : string -> bool) (now : Z) (draw : nat -> Q)
    (all : list ParkingLot.t) :
  forall cursor : nat,
    Forall2 (fun lot written => exists r : Q, written = Spec.perturbed now r lot)
            (Spec.savedPrefix fails all)
            (Spec.perturbedPrefix fails now draw cursor all).
Proof.
  induction all as [|lot rest IH]; intros cursor; [constructor|].
  cbn [Spec.savedPrefix Spec.perturbedPrefix].
  destruct (fails (ParkingLot._id lot)); [constructor|].
  constructor; [now exists (draw cursor) | apply IH].
Qed.

Lemma perturbedPrefix_from (fails : string -> bool) (now : Z) (draw : nat -> Q)
    (all : list ParkingLot.t) :
  forall (cursor : nat) (written : ParkingLot.t),
    In written (Spec.perturbedPrefix fails now draw cursor all) ->
    exists (lot : ParkingLot.t) (r : Q), In lot all /\ written = Spec.perturbed now r lot.
Proof.
  induction all as [|lot rest IH]; intros cursor written Hin; [contradiction|].
  cbn [Spec.perturbedPrefix] in Hin.
  destruct (fails (ParkingLot._id lot)); [contradiction|].
  destruct Hin as [<- | Hin].
  - exists lot, (draw cursor). split; [now left | reflexivity].
  - apply IH in Hin as (lot' & r & Hlot & ->). exists lot', r. split; [now right | reflexivity].
Qed.

Lemma perturbedPrefix_ids (fails : string -> bool) (now : Z) (draw : nat -> Q)
    (all : list ParkingLot.t) :
  forall cursor : nat,
    List.map ParkingLot._id (Spec.perturbedPrefix fails now draw cursor all)
    = List.map ParkingLot._id (Spec.savedPrefix fails all).
Proof.
  induction all as [|lot rest IH]; intros cursor; [reflexivity|].
  cbn [Spec.savedPrefix Spec.perturbedPrefix].
  destruct (fails (ParkingLot._id lot)); [reflexivity|].
  cbn [List.map Spec.perturbed ParkingLot._id]. now rewrite IH.
Qed.

Lemma savedPrefix_prefix (fails : string -> bool) (all : list ParkingLot.t) :
  exists rest, all = Spec.savedPrefix fails all ++ rest.
Proof.
  induction all as [|lot more [rest IH]]; [now exists []|].
  cbn [Spec.savedPrefix]. destruct (fails (ParkingLot._id lot)).
  - now exists (lot :: more).
  - exists rest. cbn [app]. now rewrite <- IH.
Qed.

(** One step of the loop, for the proofs by induction on the pending
    lots. *)
Lemma updateLots_step (faults : Faults) (now : Z) (lot : ParkingLot.t)
    (rest : list ParkingLot.t) (w : World) :
  let r := draws (random w) (cursor (random w)) in
  let r' := draws (random w) (S (cursor (random w))) in
  let updated :=
    ParkingLot.mk (ParkingLot._id lot) (ParkingLot.name lot) (ParkingLot.totalSpots lot)
      (Z.max 0 (Z.min (ParkingLot.totalSpots lot)
                      (ParkingLot.availableSpots lot + (Math_floor (r * 7) - 3))))
      (ParkingLot.location lot) (ParkingLot.sensors lot) now in
  let w1 := mkWorld (store w) (emitted w) (console w)
              (mkRandom (draws (random w)) (S (cursor (random w)))) in
  let w2 := mkWorld (mkStore (persist updated (lots (store w))) (history (store w)))
              (emitted w) (console w)
              (mkRandom (draws (random w)) (S (S (cursor (random w))))) in
  let w3 := if negb (Qle_bool (17 # 100) r')
            then recordCurrentState faults now (ParkingLot._id lot) w2 else w2 in
  updateLots faults now (lot :: rest) w
  = if lotSaveFails faults (ParkingLot._id lot)
    then (Thrown (Error "save failed"), w1)
    else updateLots faults now rest
           (io_emit (ParkingUpdate.mk (ParkingLot._id lot)
                       (ParkingLot.availableSpots updated) now) w3).
Proof. reflexivity. Qed.

(** What the loop announces and stores: the lots of the saved prefix,
    each perturbed with its draw, in order. *)
Lemma updateLots_written (faults : Faults) (now : Z) (pending : list ParkingLot.t) :
  forall w : World,
    let written :=
      Spec.perturbedPrefix (lotSaveFails faults) now (draws (random w))
                           (cursor (random w)) pending in
    emitted (snd (updateLots faults now pending w))
    = emitted w ++ List.map Spec.announcement written
    /\ lots (store (snd (updateLots faults now pending w)))
       = Spec.persisted written (lots (store w)).
Proof.
  induction pending as [|lot rest IH]; intros w.
  - cbn. now rewrite app_nil_r.
  - rewrite updateLots_step. cbv zeta. cbn [Spec.perturbedPrefix].
    destruct (lotSaveFails faults (ParkingLot._id lot)).
    + cbn. now rewrite app_nil_r.
    + match goal with |- context [updateLots faults now rest ?w'] =>
        destruct (IH w') as [Hemitted Hstored];
        assert (Hrandom : random w'
                          = mkRandom (draws (random w)) (S (S (cursor (random w)))));
        [|assert (Hlots : lots (store w')
                          = persist (Spec.perturbed now
                                       (draws (random w) (cursor (random w))) lot)
                                    (lots (store w)));
          [|assert (Hsent : emitted w'
                            = emitted w
                              ++ [Spec.announcement
                                    (Spec.perturbed now
                                       (draws (random w) (cursor (random w))) lot)])]]
      end.
      * unfold io_emit. cbn [random].
        destruct (negb _); [rewrite recordCurrentState_random|]; reflexivity.
      * unfold io_emit. cbn [store].
        destruct (negb _); [rewrite (proj1 (recordCurrentState_keeps _ _ _ _))|];
          reflexivity.
      * unfold io_emit. cbn [emitted].
        destruct (negb _); [rewrite (proj2 (recordCurrentState_keeps _ _ _ _))|];
          reflexivity.
      * rewrite Hrandom in Hemitted, Hstored. cbn [draws cursor] in Hemitted, Hstored.
        rewrite Hemitted, Hstored, Hsent, Hlots.
        cbn [List.map]. rewrite <- app_assoc. split; reflexivity.
Qed.

Lemma updateLots_untouched (faults : Faults) (now : Z) (pending : list ParkingLot.t) :
  forall (w : World) (lot : ParkingLot.t),
    In lot (lots (store w)) ->
    ~ In (ParkingLot._id lot)
         (List.map ParkingLot._id (Spec.savedPrefix (lotSaveFails faults) pending)) ->
    In lot (lots (store (snd (updateLots faults now pending w)))).
Proof.
  induction pending as [|first rest IH]; intros w lot Hin Hfresh; [exact Hin|].
  rewrite updateLots_step. cbv zeta. cbn [Spec.savedPrefix] in Hfresh.
  destruct (lotSaveFails faults (ParkingLot._id first)); [exact Hin|].
  cbn [List.map In] in Hfresh.
  apply IH; [|tauto].
  unfold io_emit. cbn [store].
  assert (Hkept : forall w', lots (store w') = persist
            (ParkingLot.mk (ParkingLot._id first) (ParkingLot.name first)
               (ParkingLot.totalSpots first)
               (Z.max 0 (Z.min (ParkingLot.totalSpots first)
                  (ParkingLot.availableSpots first
                   + (Math_floor (draws (random w) (cursor (random w)) * 7) - 3))))
               (ParkingLot.location first) (ParkingLot.sensors first) now)
            (lots (store w)) -> In lot (lots (store w'))).
  { intros w' ->. apply persist_other; [exact Hin|]. cbn [ParkingLot._id]. intros Heq.
    apply Hfresh. left. now symmetry. }
  destruct (negb _); apply Hkept; [|reflexivity].
  now rewrite (proj1 (recordCurrentState_keeps _ _ _ _)).
Qed.

(** The same for a whole firing. *)
Lemma backgroundJob_written (faults : Faults) (now : Z) (w : World) :
  let written :=
    if findFails faults then []
    else Spec.perturbedPrefix (lotSaveFails faults) now (draws (random w))
                              (cursor (random w)) (lots (store w)) in
  emitted (backgroundJob faults now w) = emitted w ++ List.map Spec.announcement written
  /\ lots (store (backgroundJob faults now w)) = Spec.persisted written (lots (store w)).
Proof.
  unfold backgroundJob. destruct (findFails faults).
  - cbn. now rewrite app_nil_r.
  - pose proof (updateLots_written faults now (lots (store w)) w) as Hloop.
    cbv zeta in *.
    destruct (updateLots faults now (lots (store w)) w) as [[[]|e] w']; exact Hloop.
Qed.

(** ** C2: a failed write during a cycle *)

(** C2. One firing of the background job perturbs, persists and
    announces the lots up to the first whose write fails, in store
    order, whatever history snapshots fail: the events added are those
    of these lots, each carrying the perturbed count and the time of the
    firing, and the store is the old one with these lots written; when
    the ids of the store are distinct, each of them is found afterwards
    under its id with its perturbed count.  A failed history snapshot
    stops nothing; a failed write of a lot ends the cycle: a lot whose
    id is not among those announced is left in the store as it was. *)
Theorem backgroundJob_emits_saved_prefix (faults : Faults) (now : Z) (w : World) :
  let saved :=
    if findFails faults then []
    else Spec.savedPrefix (lotSaveFails faults) (lots (store w)) in
  let written :=
    if findFails faults then []
    else Spec.perturbedPrefix (lotSaveFails faults) now (draws (random w))
                              (cursor (random w)) (lots (store w)) in
  Forall2 (fun lot updated => exists r : Q, updated = Spec.perturbed now r lot)
          saved written
  /\ emitted (backgroundJob faults now w) = emitted w ++ List.map Spec.announcement written
  /\ lots (store (backgroundJob faults now w)) = Spec.persisted written (lots (store w))
  /\ (List.NoDup (List.map ParkingLot._id (lots (store w))) ->
      forall updated, In updated written ->
        ParkingLot.findById (lots (store (backgroundJob faults now w)))
                            (ParkingLot._id updated)
        = Some updated)
  /\ (forall lot,
        In lot (lots (store w)) ->
        ~ In (ParkingLot._id lot) (List.map ParkingLot._id saved) ->
        In lot (lots (store (backgroundJob faults now w)))).
Proof.
  intros saved written.
  destruct (backgroundJob_written faults now w) as [Hemitted Hstored].
  fold written in Hemitted, Hstored.
  split; [|split; [exact Hemitted|split; [exact Hstored|split]]].
  - unfold saved, written. destruct (findFails faults); [constructor|].
    apply perturbedPrefix_saved.
  - intros Hnodup updated Hin. rewrite Hstored.
    assert (Hids : List.map ParkingLot._id written = List.map ParkingLot._id saved).
    { unfold saved, written. destruct (findFails faults); [reflexivity|].
      apply perturbedPrefix_ids. }
    assert (Hprefix : exists rest,
              List.map ParkingLot._id (lots (store w))
              = List.map ParkingLot._id saved ++ rest).
    { unfold saved. destruct (findFails faults); [now eexists|].
      destruct (savedPrefix_prefix (lotSaveFails faults) (lots (store w))) as [rest Hrest].
      exists (List.map ParkingLot._id rest). rewrite <- List.map_app. now rewrite <- Hrest. }
    destruct Hprefix as [rest Hprefix]. rewrite <- Hids in Hprefix.
    apply persisted_lookup; [| exact Hin |].
    + rewrite Hprefix in Hnodup. now apply List.NoDup_app_remove_r in Hnodup.
    + rewrite Hprefix. apply in_or_app. left. now apply in_map.
  - intros lot Hin Hfresh. unfold saved in Hfresh. unfold backgroundJob.
    destruct (findFails faults); [exact Hin|].
    pose proof (updateLots_untouched faults now (lots (store w)) w lot Hin Hfresh) as Hloop.
    destruct (updateLots faults now (lots (store w)) w) as [[[]|e] w']; exact Hloop.
Qed.

(** The write of lot A fails: no lot is announced and none is changed,
    although the writes of B, C and D would have succeeded. *)
Lemma backgroundJob_failure_aborts_cycle :
  List.map ParkingLot._id (lots (store seededWorld)) = ["A"; "B"; "C"; "D"]
  /\ List.map (lotSaveFails lotAFails) ["A"; "B"; "C"; "D"] = [true; false; false; false]
  /\ emitted (backgroundJob lotAFails 0 seededWorld) = []
  /\ lots (store (backgroundJob lotAFails 0 seededWorld)) = lots (store seededWorld).
Proof. repeat split; vm_compute; reflexivity. Qed.

(** ** C1: the bound on the available count *)

(** C1. A firing of the background job leaves every lot either
    untouched or, when its capacity is not negative, with
    [0 <= availableSpots <= totalSpots], its id and capacity being
    those of a lot of the store; so the bound, once true of every lot,
    is true after the firing.  The update route leaves every lot either
    untouched or, for the lot of the request, with the [availableSpots]
    of the request body, and it keeps every lot that has another id;
    when the lot exists and the write succeeds it answers 200 and the
    stored lot carries the value of the body as it was sent, with the
    capacity it had. *)
Theorem availability_after_cycle_and_update (faults : Faults) (now : Z) (w : World) :
  (forall lot', In lot' (lots (store (backgroundJob faults now w))) ->
     In lot' (lots (store w))
     \/ exists lot, In lot (lots (store w))
          /\ ParkingLot._id lot' = ParkingLot._id lot
          /\ ParkingLot.totalSpots lot' = ParkingLot.totalSpots lot
          /\ (0 <= ParkingLot.totalSpots lot -> Spec.within_bounds lot'))
  /\ ((forall lot, In lot (lots (store w)) -> Spec.within_bounds lot) ->
      forall lot', In lot' (lots (store (backgroundJob faults now w))) ->
        Spec.within_bounds lot')
  /\ (forall (id : string) (availableSpots : Z) (sensors : list Sensor) lot',
        In lot' (lots (store (snd (put_parking_lot faults now id availableSpots sensors w)))) ->
        (ParkingLot._id lot' = id /\ ParkingLot.availableSpots lot' = availableSpots)
        \/ In lot' (lots (store w)))
  /\ (forall (id : string) (availableSpots : Z) (sensors : list Sensor) lot,
        In lot (lots (store w)) ->
        ParkingLot._id lot <> id ->
        In lot (lots (store (snd (put_parking_lot faults now id availableSpots sensors w)))))
  /\ (forall (id : string) (availableSpots : Z) (sensors : list Sensor) found,
        lotSaveFails faults id = false ->
        ParkingLot.findById (lots (store w)) id = Some found ->
        exists stored,
          ParkingLot.findById
            (lots (store (snd (put_parking_lot faults now id availableSpots sensors w)))) id
          = Some stored
          /\ ParkingLot.availableSpots stored = availableSpots
          /\ ParkingLot.totalSpots stored = ParkingLot.totalSpots found
          /\ fst (put_parking_lot faults now id availableSpots sensors w)
             = mkResponse 200 (LotJson stored None)).
Proof.
  assert (Hcycle : forall lot', In lot' (lots (store (backgroundJob faults now w))) ->
     In lot' (lots (store w))
     \/ exists lot, In lot (lots (store w))
          /\ ParkingLot._id lot' = ParkingLot._id lot
          /\ ParkingLot.totalSpots lot' = ParkingLot.totalSpots lot
          /\ (0 <= ParkingLot.totalSpots lot -> Spec.within_bounds lot')).
  { intros lot' Hin.
    destruct (backgroundJob_written faults now w) as [_ Hstored].
    rewrite Hstored in Hin.
    apply persisted_either in Hin as [Hwritten | Hold]; [right | now left].
    destruct (findFails faults); [contradiction|].
    apply perturbedPrefix_from in Hwritten as (lot & r & Hlot & ->).
    exists lot. split; [exact Hlot|]. unfold Spec.within_bounds.
    cbn [Spec.perturbed ParkingLot._id ParkingLot.totalSpots ParkingLot.availableSpots].
    repeat split; lia. }
  split; [exact Hcycle|]. split; [|split; [|split]].
  - intros Hbounds lot' Hin.
    destruct (Hcycle lot' Hin) as [Hold | (lot & Hlot & _ & _ & Hok)].
    + now apply Hbounds.
    + apply Hok. specialize (Hbounds lot Hlot). unfold Spec.within_bounds in Hbounds. lia.
  - intros id availableSpots sensors lot'. unfold put_parking_lot.
    destruct (lotSaveFails faults id); [now right|].
    destruct (ParkingLot.findById (lots (store w)) id) as [found|] eqn:Hfound; [|now right].
    unfold io_emit. cbn [snd store].
    rewrite (proj1 (recordCurrentState_keeps _ _ _ _)). cbn [save_lot store lots].
    intros Hin. apply persist_either in Hin. destruct Hin as [-> | Hold]; [left | now right].
    cbn [ParkingLot._id ParkingLot.availableSpots]. split; [|reflexivity].
    now apply findById_found in Hfound.
  - intros id availableSpots sensors lot Hin Hother. unfold put_parking_lot.
    destruct (lotSaveFails faults id); [exact Hin|].
    destruct (ParkingLot.findById (lots (store w)) id) as [found|] eqn:Hfound; [|exact Hin].
    unfold io_emit. cbn [snd store].
    rewrite (proj1 (recordCurrentState_keeps _ _ _ _)). cbn [save_lot store lots].
    apply persist_other; [exact Hin|]. cbn [ParkingLot._id].
    apply findById_found in Hfound as [Hid _]. congruence.
  - intros id availableSpots sensors found Hsave Hfound.
    assert (Hid : ParkingLot._id found = id) by now apply findById_found in Hfound.
    subst id. unfold put_parking_lot. rewrite Hsave, Hfound.
    set (lot := ParkingLot.mk (ParkingLot._id found) (ParkingLot.name found)
                  (ParkingLot.totalSpots found) availableSpots
                  (ParkingLot.location found) sensors now).
    exists lot. unfold io_emit. cbn [fst snd store].
    rewrite (proj1 (recordCurrentState_keeps _ _ _ _)). cbn [save_lot store lots].
    split; [|split; [|split]]; try reflexivity.
    exact (findById_persist lot found _ Hfound).
Qed.

Lemma availability_after_cycle_and_update_witness :
  status (fst (put_parking_lot noFaults 0 "B" 7 [] seededWorld)) = 200.
Proof.
  destruct (availability_after_cycle_and_update noFaults 0 seededWorld)
    as (_ & _ & _ & _ & Hput).
  destruct (Hput "B" 7 [] (seedLot "B" "South Campus Lot B" 200 12 33.4225 (-111.9265))
              eq_refl eq_refl) as (stored & _ & _ & _ & ->).
  reflexivity.
Defined.

(** The update route stores 999 available spots for the 150 spots of
    lot A, all four seeded lots being within bounds before. *)
Lemma update_route_breaks_bound :
  Forall Spec.within_bounds (lots (store seededWorld))
  /\ List.map (fun lot => (ParkingLot._id lot, ParkingLot.totalSpots lot,
                            ParkingLot.availableSpots lot))
       (lots (store (snd (put_parking_lot noFaults 0 "A" 999 [] seededWorld))))
     = [("A", 150, 999); ("B", 200, 12); ("C", 80, 65); ("D", 300, 5)]
  /\ status (fst (put_parking_lot noFaults 0 "A" 999 [] seededWorld)) = 200.
Proof.
  split; [|split; vm_compute; reflexivity].
  repeat constructor; unfold Spec.within_bounds; simpl; lia.
Qed.

(** ** C9: what the transformer computes from its inputs alone *)

Lemma mapElement_shape (lat lng : float) (now : Z) (el : Element) (idx : nat)
    (g : RandomSource) :
  Spec.shape (fst (mapElement lat lng now el idx g)) = Spec.shapeOf lat lng el idx.
Proof.
  unfold mapElement, Math_random.
  destruct (parseInt (tag el "capacity")) as [n|]; [destruct (n =? 0)|]; reflexivity.
Qed.

Lemma mapElements_shape (lat lng : float) (now : Z) (elements : list Element) :
  forall (idx : nat) (g : RandomSource),
    List.map Spec.shape (fst (mapElements lat lng now elements idx g))
    = Spec.shapesFrom lat lng elements idx.
Proof.
  induction elements as [|el rest IH]; intros idx g; [reflexivity|].
  cbn [mapElements Spec.shapesFrom].
  pose proof (mapElement_shape lat lng now el idx g) as Hfirst.
  destruct (mapElement lat lng now el idx g) as [lot g1].
  specialize (IH (S idx) g1).
  destruct (mapElements lat lng now rest (S idx) g1) as [more g2].
  simpl in *. now rewrite Hfirst, IH.
Qed.

Lemma mapElement_capacity (lat lng : float) (now : Z) (el : Element) (idx : nat)
    (g : RandomSource) (n : Z) :
  parseInt (tag el "capacity") = Some n -> n <> 0 ->
  Facility.totalSpots (fst (mapElement lat lng now el idx g)) = n.
Proof.
  intros Hparse Hn. unfold mapElement, Math_random. rewrite Hparse.
  apply Z.eqb_neq in Hn. now rewrite Hn.
Qed.

Lemma mapElements_capacity (lat lng : float) (now : Z) (elements : list Element) :
  forall (idx : nat) (g : RandomSource) (i : nat) (el : Element) (n : Z),
    elements !! i = Some el ->
    parseInt (tag el "capacity") = Some n -> n <> 0 ->
    Facility.totalSpots <$> fst (mapElements lat lng now elements idx g) !! i = Some n.
Proof.
  induction elements as [|first rest IH]; intros idx g i el n Hel Hparse Hn;
    [discriminate|].
  cbn [mapElements].
  pose proof (mapElement_capacity lat lng now first idx g n) as Hfirst.
  destruct (mapElement lat lng now first idx g) as [lot g1].
  specialize (IH (S idx) g1).
  destruct (mapElements lat lng now rest (S idx) g1) as [more g2].
  destruct i as [|i]; simpl in *.
  - injection Hel as ->. now rewrite Hfirst.
  - now apply (IH i el n).
Qed.

(** C9. Whatever the draws of [Math.random()] and the clock, two runs of
    the transformer on the same elements and fallback coordinates give
    lists with the same ids, names and locations, element by element;
    and an element whose capacity tag parses to a non-zero integer gets
    that integer as its capacity in every run. *)
Theorem mapOverpassToParkingLots_fixed_part
    (elements : list Element) (lat lng : float) (now now' : Z) (g g' : RandomSource) :
  List.map Spec.shape (fst (mapOverpassToParkingLots elements lat lng now g))
  = List.map Spec.shape (fst (mapOverpassToParkingLots elements lat lng now' g'))
  /\ (forall (i : nat) (el : Element) (n : Z),
        slice 0 50 elements !! i = Some el ->
        parseInt (tag el "capacity") = Some n -> n <> 0 ->
        Facility.totalSpots <$> fst (mapOverpassToParkingLots elements lat lng now g) !! i
        = Some n).
Proof.
  unfold mapOverpassToParkingLots. split.
  - now rewrite !mapElements_shape.
  - intros i el n. apply mapElements_capacity.
Qed.

(** The same element transformed under two sources of draws: 84
    available spots when every draw is 0.01, 54 when every draw is
    0.51. *)
Lemma mapOverpassToParkingLots_depends_on_draws :
  List.map Facility.availableSpots
    (fst (mapOverpassToParkingLots [sampleElement] 33.4242 (-111.9281) 0
            (constantDraws (1 # 100))))
  = [84]
  /\ List.map Facility.availableSpots
       (fst (mapOverpassToParkingLots [sampleElement] 33.4242 (-111.9281) 0
               (constantDraws (51 # 100))))
     = [54].
Proof. split; vm_compute; reflexivity. Qed.

(** ** C4: two identical area requests *)

(** C4. Every call of [fetchOpenStreetMapParking] throws the
    ReferenceError of [OVERPASS_ENDPOINTS] and leaves the server as it
    was: it sends no request and neither reads nor writes the caches;
    the lookup by id, the only reader of the area cache, does not write
    it either.  Two successive calls with the same arguments on a fresh
    server both throw, send nothing upstream and leave the area cache
    empty, so that the second call is not served from it; the route of
    the real lots, asked with its default parameters, answers with the
    four lots of the database. *)
Theorem fetchOpenStreetMapParking_bypasses_cache :
  (forall (lat lng : float) (radius : Z) (s : Server),
      fetchOpenStreetMapParking lat lng radius s
      = (Thrown (Error "OVERPASS_ENDPOINTS is not defined"), s))
  /\ (forall (now : Z) (osmId : string) (lat lng : float) (g : RandomSource) (s : Server),
        areaCache (snd (fetchOpenStreetMapParkingById now osmId lat lng g s)) = areaCache s)
  /\ fst (fetchOpenStreetMapParking 33.4242 (-111.9281) 5000 freshServer)
     = Thrown (Error "OVERPASS_ENDPOINTS is not defined")
  /\ fst (fetchOpenStreetMapParking 33.4242 (-111.9281) 5000
            (snd (fetchOpenStreetMapParking 33.4242 (-111.9281) 5000 freshServer)))
     = Thrown (Error "OVERPASS_ENDPOINTS is not defined")
  /\ sent (net listNearbyTwice) = []
  /\ areaCache listNearbyTwice = emptyAreaCache
  /\ readAreaCache 1000 (areaCache listNearbyTwice)
       (areaKey 33.4242 (-111.9281) 5000) (10 * 60 * 1000) = None
  /\ (exists (found : list Facility.t) (w : World),
        get_real_parking_lots noFaults nan nan None seededWorld freshServer
        = (200, RealLots found, w, freshServer)
        /\ List.map Facility.id found = ["A"; "B"; "C"; "D"]).
Proof.
  split; [|split].
  - reflexivity.
  - intros now osmId lat lng g s. unfold fetchOpenStreetMapParkingById.
    destruct (readIdCache _ _ _ _) as [[lot|] idCache]; [reflexivity|].
    destruct (indexById (areaCache s) ≫= _) as [lot|]; [reflexivity|].
    destruct (callOverpass _ _ _) as [[elements|e] net']; [|reflexivity].
    destruct (mapOverpassToParkingLots _ _ _ _ _) as [[|lot more] g']; reflexivity.
  - repeat split; try (vm_compute; reflexivity).
    eexists _, _. split; vm_compute; reflexivity.
Qed.

(** * Further properties of [server.js] *)

(** ** The caches *)

(** X1. A read of the area cache after a save returns the saved snapshot
    exactly when the key is the saved one and at most [maxAgeMs] have
    elapsed; otherwise it misses. *)
Theorem readAreaCache_after_save
    (now now' : Z) (k k' : string) (found : list Facility.t) (maxAgeMs : Z) :
  readAreaCache now' (saveAreaCache now k found) k' maxAgeMs
  = if bool_decide (k' = k) && (now' - now <=? maxAgeMs)
    then Some (saveAreaCache now k found) else None.
Proof.
  unfold readAreaCache. cbn [key ts saveAreaCache].
  destruct (decide (k' = k)) as [->|Hne].
  - rewrite !bool_decide_eq_true_2 by reflexivity. cbn [negb andb].
    destruct (Z.ltb_spec maxAgeMs (now' - now)), (Z.leb_spec (now' - now) maxAgeMs);
      try reflexivity; lia.
  - rewrite (bool_decide_eq_false_2 (Some k = Some k')) by congruence.
    now rewrite (bool_decide_eq_false_2 (k' = k)) by assumption.
Qed.

Lemma find_snoc {A : Type} (p : A -> bool) (l : list A) (a : A) :
  List.find p (l ++ [a])
  = match List.find p l with
    | Some x => Some x
    | None => if p a then Some a else None
    end.
Proof.
  induction l as [|b l IH]; [reflexivity|].
  cbn [app List.find]. destruct (p b); [reflexivity | exact IH].
Qed.

Lemma index_fold (found : list Facility.t) :
  forall (index : gmap string Facility.t) (id : string),
    fold_left (fun (index : gmap string Facility.t) lot => <[Facility.id lot := lot]> index)
              found index !! id
    = match List.find (fun lot => bool_decide (Facility.id lot = id)) (rev found) with
      | Some lot => Some lot
      | None => index !! id
      end.
Proof.
  induction found as [|lot rest IH]; intros index id; [reflexivity|].
  cbn [fold_left rev]. rewrite IH, find_snoc.
  destruct (List.find _ (rev rest)); [reflexivity|].
  destruct (decide (Facility.id lot = id)) as [<-|Hne].
  - rewrite bool_decide_eq_true_2 by reflexivity. apply lookup_insert_eq.
  - rewrite bool_decide_eq_false_2 by assumption. now apply lookup_insert_ne.
Qed.

(** X2. The index that [saveAreaCache] builds maps an id to the last lot
    of the saved list that carries it, and to nothing when no lot of the
    list does. *)
Theorem saveAreaCache_index (now : Z) (k : string) (found : list Facility.t) :
  exists index : gmap string Facility.t,
    indexById (saveAreaCache now k found) = Some index
    /\ cachedLots (saveAreaCache now k found) = Some found
    /\ forall id : string,
         index !! id
         = List.find (fun lot => bool_decide (Facility.id lot = id)) (rev found).
Proof.
  eexists. split; [reflexivity|]. split; [reflexivity|].
  intros id. rewrite index_fold.
  destruct (List.find _ (rev found)); [reflexivity | apply lookup_empty].
Qed.

(** X3. A read of the per-id cache after a save of the same id returns
    the saved lot and leaves the cache alone while at most [maxAgeMs]
    have elapsed; later it misses and evicts the entry.  A read of
    another id sees what it saw before the save. *)
Theorem readIdCache_after_save
    (now now' : Z) (id : string) (lot : Facility.t) (cache : gmap string IdEntry)
    (maxAgeMs : Z) :
  readIdCache now' id maxAgeMs (saveIdCache now id lot cache)
  = (if maxAgeMs <? now' - now then (None, delete id cache)
     else (Some lot, saveIdCache now id lot cache))
  /\ forall id' : string,
       id' <> id ->
       fst (readIdCache now' id' maxAgeMs (saveIdCache now id lot cache))
       = fst (readIdCache now' id' maxAgeMs cache).
Proof.
  unfold readIdCache, saveIdCache. split.
  - rewrite lookup_insert_eq. cbn [entryTs entryLot].
    destruct (maxAgeMs <? now' - now); [|reflexivity].
    now rewrite delete_insert_eq.
  - intros id' Hne. rewrite lookup_insert_ne by congruence.
    destruct (cache !! id') as [entry|]; [|reflexivity].
    now destruct (maxAgeMs <? now' - entryTs entry).
Qed.

(** ** The lookup of one lot by id *)

Lemma readIdCache_fresh (now now' : Z) (id : string) (lot : Facility.t)
    (cache : gmap string IdEntry) (maxAgeMs : Z) :
  now' - now <= maxAgeMs ->
  readIdCache now' id maxAgeMs (saveIdCache now id lot cache)
  = (Some lot, saveIdCache now id lot cache).
Proof.
  intros Hage. unfold readIdCache, saveIdCache. rewrite lookup_insert_eq.
  cbn [entryTs entryLot].
  destruct (Z.ltb_spec maxAgeMs (now' - now)); [lia | reflexivity].
Qed.

(** X4. Once a lookup by id has been answered from the area cache or
    from Overpass, every lookup of the same id during the next hour is
    answered with the same lot from the per-id cache: it sends no
    request, draws no random number and changes nothing. *)
Theorem fetchById_then_served_from_id_cache
    (now now' : Z) (osmId : string) (lat lng lat' lng' : float)
    (g g' g1 : RandomSource) (s s1 : Server) (lot : Facility.t) (source : string) :
  fetchOpenStreetMapParkingById now osmId lat lng g s = (Returned (lot, source), g1, s1) ->
  source <> "id-cache" ->
  now' - now <= 60 * 60 * 1000 ->
  fetchOpenStreetMapParkingById now' osmId lat' lng' g' s1
  = (Returned (lot, "id-cache"), g', s1).
Proof.
  intros Hfirst Hsource Hage.
  assert (Hsaved : exists cache,
            singleIdCache s1 = saveIdCache now (osmKey osmId) lot cache).
  { unfold fetchOpenStreetMapParkingById in Hfirst. fold (osmKey osmId) in Hfirst.
    destruct (readIdCache now (osmKey osmId) _ _) as [[hit|] idCache].
    - injection Hfirst as _ Hsrc _ _. congruence.
    - destruct (indexById (areaCache s) ≫= _) as [hit|].
      + injection Hfirst as <- _ _ <-. now exists idCache.
      + destruct (callOverpass _ _ _) as [[elements|e] net']; [|discriminate].
        destruct (mapOverpassToParkingLots _ _ _ _ _) as [[|first more] g2];
          [discriminate|].
        injection Hfirst as <- _ _ <-. now exists idCache. }
  destruct Hsaved as [cache Hcache].
  unfold fetchOpenStreetMapParkingById. fold (osmKey osmId).
  rewrite Hcache, readIdCache_fresh by exact Hage.
  rewrite <- Hcache. now destruct s1.
Qed.

Lemma fetchById_then_served_from_id_cache_witness :
  fst (fst (fetchOpenStreetMapParkingById 1000 "4242" 33.4242 (-111.9281)
              (constantDraws (1 # 100))
              (snd (fetchOpenStreetMapParkingById 0 "4242" 33.4242 (-111.9281)
                      (constantDraws (1 # 100)) freshServer))))
  = Returned
      (Facility.mk "osm-4242" "Lot 59" 120 84 (mkLocation 33.42 (-111.93)) 0 74 85,
       "id-cache").
Proof.
  set (first := fetchOpenStreetMapParkingById 0 "4242" 33.4242 (-111.9281)
                  (constantDraws (1 # 100)) freshServer).
  assert (Hout : fst (fst first)
                 = Returned (Facility.mk "osm-4242" "Lot 59" 120 84
                               (mkLocation 33.42 (-111.93)) 0 74 85, "overpass"))
    by (vm_compute; reflexivity).
  rewrite (fetchById_then_served_from_id_cache 0 1000 "4242" 33.4242 (-111.9281)
             33.4242 (-111.9281) (constantDraws (1 # 100)) (constantDraws (1 # 100))
             (snd (fst first)) freshServer (snd first)
             (Facility.mk "osm-4242" "Lot 59" 120 84 (mkLocation 33.42 (-111.93)) 0 74 85)
             "overpass").
  - reflexivity.
  - fold first. destruct first as [[out g1] s1]. simpl in *. now subst out.
  - discriminate.
  - vm_compute. discriminate.
Defined.

Lemma readIdCache_miss (now : Z) (id : string) (maxAgeMs : Z)
    (cache idCache : gmap string IdEntry) :
  readIdCache now id maxAgeMs cache = (None, idCache) -> idCache !! id = None.
Proof.
  unfold readIdCache. destruct (cache !! id) as [entry|] eqn:Hentry.
  - destruct (maxAgeMs <? now - entryTs entry); [|discriminate].
    intros [= <-]. apply lookup_delete_eq.
  - now intros [= <-].
Qed.

(** X5. A lookup by id sends requests upstream, and draws random
    numbers, only when the per-id cache and the index of the area cache
    both miss the id; and a lookup that throws leaves no entry for the
    id in the per-id cache. *)
Theorem fetchById_upstream_only_on_double_miss
    (now : Z) (osmId : string) (lat lng : float) (g : RandomSource) (s : Server) :
  ((net (snd (fetchOpenStreetMapParkingById now osmId lat lng g s)) = net s
    /\ snd (fst (fetchOpenStreetMapParkingById now osmId lat lng g s)) = g)
   \/ (fst (readIdCache now (osmKey osmId) (60 * 60 * 1000) (singleIdCache s)) = None
       /\ indexById (areaCache s) ≫= (fun index => index !! osmKey osmId) = None))
  /\ forall e : Exn,
       fst (fst (fetchOpenStreetMapParkingById now osmId lat lng g s)) = Thrown e ->
       singleIdCache (snd (fetchOpenStreetMapParkingById now osmId lat lng g s))
         !! osmKey osmId = None.
Proof.
  unfold fetchOpenStreetMapParkingById. fold (osmKey osmId).
  destruct (readIdCache now (osmKey osmId) _ _) as [[hit|] idCache] eqn:Hread.
  - split; [left; now split | discriminate].
  - apply readIdCache_miss in Hread.
    destruct (indexById (areaCache s) ≫= _) as [hit|].
    + split; [left; now split | discriminate].
    + split; [right; now split|].
      destruct (callOverpass _ _ _) as [[elements|e'] net']; [|intros; exact Hread].
      destruct (mapOverpassToParkingLots _ _ _ _ _) as [[|first more] g2];
        [intros; exact Hread | discriminate].
Qed.

Lemma substring_all (s : string) : String.substring 0 (String.length s) s = s.
Proof. induction s as [|c s IH]; [reflexivity|]. cbn. now rewrite IH. Qed.

Lemma callOverpass_requests (mirrors : list string) (query : Query) (attempts : nat)
    (net : Net) :
  exists k : nat,
    sent (snd (callOverpass_on mirrors query attempts net))
    = sent net ++ Spec.contacted mirrors query 0 k.
Proof.
  destruct (callOverpass_from_trace mirrors query attempts 0 undefined net
              (length (sent net)) ltac:(lia)) as (k & _ & Hsent & _).
  now exists k.
Qed.

Lemma starts_with_osm_prefixed (x : string) : starts_with_osm ("osm-" +:+ x) = true.
Proof. unfold starts_with_osm. destruct x; reflexivity. Qed.

Lemma buildOverpassIdQuery_prefixed (x : string) :
  buildOverpassIdQuery ("osm-" +:+ x) = IdQuery x.
Proof.
  unfold buildOverpassIdQuery. rewrite starts_with_osm_prefixed.
  change ("osm-" +:+ x) with (String "o" (String "s" (String "m" (String "-" x)))).
  cbn [String.length String.substring Nat.sub].
  now rewrite Nat.sub_0_r, substring_all.
Qed.

(** X6. An id may be given with or without its [osm-] prefix: the
    lookup behaves the same, and every request it sends asks Overpass
    for the id without the prefix. *)
Theorem fetchById_prefix_insensitive
    (now : Z) (x : string) (lat lng : float) (g : RandomSource) (s : Server) :
  starts_with_osm x = false ->
  fetchOpenStreetMapParkingById now ("osm-" +:+ x) lat lng g s
  = fetchOpenStreetMapParkingById now x lat lng g s
  /\ forall rq : Request,
       In rq (sent (net (snd (fetchOpenStreetMapParkingById now x lat lng g s)))) ->
       In rq (sent (net s)) \/ data rq = IdQuery x.
Proof.
  intros Hraw. unfold fetchOpenStreetMapParkingById.
  rewrite starts_with_osm_prefixed, Hraw.
  split; [reflexivity|].
  destruct (readIdCache now ("osm-" +:+ x) _ _) as [[hit|] idCache]; [now left|].
  destruct (indexById (areaCache s) ≫= _) as [hit|]; [now left|].
  rewrite buildOverpassIdQuery_prefixed. unfold callOverpass.
  destruct (callOverpass_requests OVERPASS_MIRRORS (IdQuery x) 3 (net s)) as [k Hsent].
  assert (Hnew : forall rq,
            In rq (sent (snd (callOverpass_on OVERPASS_MIRRORS (IdQuery x) 3 (net s)))) ->
            In rq (sent (net s)) \/ data rq = IdQuery x).
  { intros rq. rewrite Hsent. intros Hin. apply in_app_or in Hin.
    destruct Hin as [Hold | Hin]; [now left | right].
    unfold Spec.contacted in Hin. apply in_map_iff in Hin.
    destruct Hin as (j & <- & _). reflexivity. }
  destruct (callOverpass_on OVERPASS_MIRRORS (IdQuery x) 3 (net s))
    as [[elements|e] net']; [|exact Hnew].
  destruct (mapOverpassToParkingLots _ _ _ _ _) as [[|first more] g2]; exact Hnew.
Qed.

Lemma fetchById_prefix_insensitive_witness :
  fst (fst (fetchOpenStreetMapParkingById 0 "osm-4242" 33.4242 (-111.9281)
              (constantDraws (1 # 100)) freshServer))
  = fst (fst (fetchOpenStreetMapParkingById 0 "4242" 33.4242 (-111.9281)
                (constantDraws (1 # 100)) freshServer)).
Proof.
  change "osm-4242" with ("osm-" +:+ "4242").
  now rewrite (proj1 (fetchById_prefix_insensitive 0 "4242" 33.4242 (-111.9281)
                        (constantDraws (1 # 100)) freshServer eq_refl)).
Defined.

(** ** Retries and mirrors *)

Lemma backoff_step (i f : nat) :
  backoff i (S f) = 500 * 2 ^ Z.of_nat i :: backoff (S i) f.
Proof. reflexivity. Qed.

Lemma callOverpass_from_slept (mirrors : list string) (query : Query) (todo : nat) :
  forall (i : nat) (lastErr : Exn) (net : Net),
    exists k f : nat,
      sent (snd (callOverpass_from mirrors query todo i lastErr net))
      = sent net ++ Spec.contacted mirrors query i k
      /\ slept (snd (callOverpass_from mirrors query todo i lastErr net))
         = slept net ++ backoff i f
      /\ (k <= todo)%nat
      /\ match fst (callOverpass_from mirrors query todo i lastErr net) with
         | Returned _ => k = S f
         | Thrown _ => k = todo /\ f = todo
         end.
Proof.
  induction todo as [|todo IH]; intros i lastErr net.
  - exists 0%nat, 0%nat. cbn. rewrite !app_nil_r. repeat split; lia.
  - cbn [callOverpass_from].
    set (rq := mkRequest (mirrors !! (i mod length mirrors)%nat) query).
    assert (Hretry : forall err,
      exists k f : nat,
        sent (snd (callOverpass_from mirrors query todo (S i) err
                     (setTimeout (500 * 2 ^ Z.of_nat i) (snd (axios_post rq net)))))
        = sent net ++ Spec.contacted mirrors query i k
        /\ slept (snd (callOverpass_from mirrors query todo (S i) err
                        (setTimeout (500 * 2 ^ Z.of_nat i) (snd (axios_post rq net)))))
           = slept net ++ backoff i f
        /\ (k <= S todo)%nat
        /\ match fst (callOverpass_from mirrors query todo (S i) err
                        (setTimeout (500 * 2 ^ Z.of_nat i) (snd (axios_post rq net)))) with
           | Returned _ => k = S f
           | Thrown _ => k = S todo /\ f = S todo
           end).
    { intros err.
      destruct (IH (S i) err (setTimeout (500 * 2 ^ Z.of_nat i) (snd (axios_post rq net))))
        as (k & f & Hsent & Hslept & Hk & Hend).
      exists (S k), (S f). rewrite Hsent, Hslept, contacted_step, backoff_step.
      cbn [axios_post snd setTimeout sent slept]. rewrite <- !app_assoc.
      repeat split; [lia|].
      destruct (fst _); [lia | destruct Hend; split; lia]. }
    destruct (axios_post rq net) as [resp net0] eqn:Hpost.
    assert (Hnet0 : net0 = snd (axios_post rq net)) by now rewrite Hpost.
    destruct resp as [status elements | err].
    + destruct ((200 <=? status) && (status <? 300)).
      * exists 1%nat, 0%nat. cbn [fst snd]. subst net0. cbn.
        rewrite app_nil_r. repeat split; lia.
      * subst net0. apply Hretry.
    + subst net0. apply Hretry.
Qed.

(** X7. [callOverpass] sleeps [500 * 2^i] ms after each failed attempt
    [i], the last one included: a call that returns after [k] requests
    has slept [k - 1] times, and a call that throws has sent all its
    requests and slept as many times, the final delay before it throws. *)
Theorem callOverpass_backoff
    (mirrors : list string) (query : Query) (attempts : nat) (net : Net) :
  exists k f : nat,
    sent (snd (callOverpass_on mirrors query attempts net))
    = sent net ++ Spec.contacted mirrors query 0 k
    /\ slept (snd (callOverpass_on mirrors query attempts net))
       = slept net ++ backoff 0 f
    /\ (k <= attempts)%nat
    /\ match fst (callOverpass_on mirrors query attempts net) with
       | Returned _ => k = S f
       | Thrown _ => k = attempts /\ f = attempts
       end.
Proof. apply callOverpass_from_slept. Qed.

(** ** The route of the real lots *)

Lemma fallbackLots_served (all : list ParkingLot.t) :
  forall g : RandomSource, Forall2 served_locally all (fst (fallbackLots all g)).
Proof.
  induction all as [|lot rest IH]; intros g; [constructor|].
  cbn [fallbackLots]. unfold fallbackLot, Math_random.
  specialize (IH (mkRandom (draws g) (S (cursor g)))).
  destruct (fallbackLots rest _) as [more g']. cbn [fst] in *.
  constructor; [|exact IH].
  unfold served_locally. cbn. repeat split; try reflexivity. lia.
Qed.

(** X8. The route of the real lots never serves a lot of Overpass:
    whatever its parameters, it sends no request and leaves the caches,
    the database and the socket alone.  It answers 200 with the ten
    first lots of the database, each with its stored fields, a
    confidence of 90 and a predicted availability that is not negative;
    when the database is empty or cannot be read it answers 503.  It
    never answers 404. *)
Theorem get_real_parking_lots_serves_fallback (faults : Faults) (lat lng : float)
    (radius : option string) (w : World) (s : Server) :
  exists (status : Z) (body : RealBody) (w' : World),
    get_real_parking_lots faults lat lng radius w s = (status, body, w', s)
    /\ store w' = store w
    /\ emitted w' = emitted w
    /\ if findFails faults || (length (lots (store w)) =? 0)%nat
       then status = 503
            /\ body = RealError "Failed to fetch real parking data"
                                "Overpass unavailable and no local fallback"
       else status = 200
            /\ exists found : list Facility.t,
                 body = RealLots found
                 /\ Forall2 served_locally (take 10 (lots (store w))) found.
Proof.
  unfold get_real_parking_lots, fetchOpenStreetMapParking. cbv zeta.
  destruct (findFails faults); cbn [orb].
  - eexists _, _, _. repeat split.
  - cbn [console_error console_log store lots random emitted console].
    pose proof (fallbackLots_served (take 10 (lots (store w))) (random w)) as Hserved.
    destruct (lots (store w)) as [|first more] eqn:Hlots.
    + eexists _, _, _. cbn. repeat split.
    + cbn [length Nat.eqb]. rewrite <- Hlots in *.
      assert (Hsome : (0 <? length (take 10 (lots (store w))))%nat = true).
      { rewrite Hlots. reflexivity. }
      rewrite Hsome.
      destruct (fallbackLots _ _) as [fallback g']. cbn [fst] in Hserved.
      eexists _, _, _. split; [reflexivity|]. split; [reflexivity|]. split; [reflexivity|].
      split; [reflexivity|]. exists fallback. now split.
Qed.

(** ** The lots the transformer makes *)








(** ** The queries on the history *)

Lemma newer_first_transitive : Transitive HistoricalData.newer_first.
Proof. intros a b c. unfold HistoricalData.newer_first. lia. Qed.

Lemma newer_first_total : Total HistoricalData.newer_first.
Proof. intros a b. unfold HistoricalData.newer_first. lia. Qed.

(** The [n] first records of a collection sorted newest first: they
    come from the collection, they are in descending order of time, and
    every record left out is at most as recent as each of them. *)
Lemma newest_first (n : nat) (l : list HistoricalData.t) :
  let kept := take n (HistoricalData.sort_desc l) in
  (forall r, In r kept -> In r l)
  /\ StronglySorted HistoricalData.newer_first kept
  /\ length kept = Nat.min n (length l)
  /\ (exists dropped, Permutation (kept ++ dropped) l
        /\ forall r x, In r dropped -> In x kept ->
             HistoricalData.timestamp r <= HistoricalData.timestamp x).
Proof.
  intros kept. unfold HistoricalData.sort_desc in kept.
  pose proof (merge_sort_Permutation HistoricalData.newer_first l) as Hperm.
  pose proof (@StronglySorted_merge_sort _ HistoricalData.newer_first _
                newer_first_transitive newer_first_total l) as Hsorted.
  rewrite <- (take_drop n (merge_sort HistoricalData.newer_first l)) in Hsorted, Hperm.
  fold kept in Hsorted, Hperm.
  split; [|split; [|split]].
  - intros r Hr. apply list_elem_of_In. rewrite <- Hperm.
    apply list_elem_of_In, in_or_app. now left.
  - now apply StronglySorted_app_1_l in Hsorted.
  - unfold kept. rewrite length_take. f_equal.
    apply Permutation_length, merge_sort_Permutation.
  - exists (drop n (merge_sort HistoricalData.newer_first l)). split; [exact Hperm|].
    intros r x Hr Hx.
    apply (StronglySorted_app_1_elem_of _ _ _ x r Hsorted); now apply list_elem_of_In.
Qed.

(** X10. [GET /api/parking-lots/:id/history] with a limit that reads as
    a positive number [n] (100 when the parameter is missing, is not a
    number or is 0) answers 200 with records of the stored history that
    all belong to the lot, most recent first; it returns [n] of them,
    or all the lot's records when there are fewer, and every record of
    the lot that is left out is at most as recent as each one returned. *)
Theorem history_route_newest_of_lot (db : Store) (id : string) (limit : option string) :
  let n := parseInt_or limit 100 in
  let ofLot := List.filter (fun r => bool_decide (HistoricalData.parkingLotId r = id))
                 (history db) in
  let out := snd (get_parking_lot_history db id limit) in
  0 < n ->
  fst (get_parking_lot_history db id limit) = 200
  /\ (forall r, In r out -> In r (history db) /\ HistoricalData.parkingLotId r = id)
  /\ StronglySorted HistoricalData.newer_first out
  /\ Z.of_nat (length out) = Z.min n (Z.of_nat (length ofLot))
  /\ (exists dropped, Permutation (out ++ dropped) ofLot
        /\ forall r x, In r dropped -> In x out ->
             HistoricalData.timestamp r <= HistoricalData.timestamp x).
Proof.
  intros n ofLot out Hn.
  destruct (newest_first (Z.abs_nat n) ofLot) as (Hin & Hsorted & Hlen & Hrest).
  change (take (Z.abs_nat n) (HistoricalData.sort_desc ofLot)) with out in *.
  split; [reflexivity|]. split; [|split; [exact Hsorted|split; [|exact Hrest]]].
  - intros r Hr. apply Hin in Hr. unfold ofLot in Hr.
    apply filter_In in Hr as [Hr Hid]. split; [exact Hr|].
    now apply bool_decide_eq_true in Hid.
  - rewrite Hlen. lia.
Qed.

Lemma history_route_newest_of_lot_witness :
  StronglySorted HistoricalData.newer_first
    (snd (get_parking_lot_history scenarioStore "A" (Some "2"))).
Proof.
  assert (Hlimit : 0 < parseInt_or (Some "2") 100) by reflexivity.
  exact (proj1 (proj2 (proj2
           (history_route_newest_of_lot scenarioStore "A" (Some "2") Hlimit)))).
Defined.

(** ** The update route: what it records and announces *)

Lemma recordCurrentState_found (faults : Faults) (now : Z) (id : string) (w : World)
    (lot : ParkingLot.t) :
  ParkingLot.findById (lots (store w)) id = Some lot ->
  recordCurrentState faults now id w
  = if historySaveFails faults id
    then console_error "Error recording historical data:" w
    else mkWorld (mkStore (lots (store w)) (history (store w) ++ [snapshot now lot]))
           (emitted w) (console w) (random w).
Proof.
  intros Hfound. unfold recordCurrentState. rewrite Hfound.
  apply findById_found in Hfound as [<- _]. reflexivity.
Qed.

(** The route on a lot that exists and whose write succeeds. *)
Lemma put_parking_lot_found (faults : Faults) (now : Z) (id : string)
    (availableSpots : Z) (sensors : list Sensor) (w : World) (found : ParkingLot.t) :
  lotSaveFails faults id = false ->
  ParkingLot.findById (lots (store w)) id = Some found ->
  let lot := ParkingLot.mk id (ParkingLot.name found) (ParkingLot.totalSpots found)
               availableSpots (ParkingLot.location found) sensors now in
  put_parking_lot faults now id availableSpots sensors w
  = (mkResponse 200 (LotJson lot None),
     io_emit (ParkingUpdate.mk id availableSpots now)
       (if historySaveFails faults id
        then console_error "Error recording historical data:" (save_lot lot w)
        else mkWorld (mkStore (persist lot (lots (store w)))
                        (history (store w) ++ [snapshot now lot]))
               (emitted w) (console w) (random w))).
Proof.
  intros Hsave Hfound lot.
  destruct (findById_found _ _ _ Hfound) as [Hid _].
  unfold put_parking_lot. rewrite Hsave, Hfound. rewrite Hid. fold lot.
  cbn [ParkingLot._id ParkingLot.availableSpots ParkingLot.lastUpdate].
  assert (Hagain : ParkingLot.findById (lots (store (save_lot lot w))) id = Some lot).
  { cbn [save_lot store lots]. exact (findById_persist lot found _ Hfound). }
  rewrite (recordCurrentState_found _ _ _ _ _ Hagain).
  reflexivity.
Qed.

(** X11. A [PUT] on a lot that exists, when the write of the lot
    succeeds, announces exactly one ['parking-update'] event carrying the
    id, the count of the request and the time of the request, and draws
    no random number.  The history snapshot is taken after the write: it
    carries the new count, with the occupancy rate computed from it and
    from the capacity the lot already had.  When the write of the
    snapshot fails the history is left as it was, one line is logged and
    the event is announced all the same. *)
Theorem put_parking_lot_records_new_state (faults : Faults) (now : Z) (id : string)
    (availableSpots : Z) (sensors : list Sensor) (w : World) (found : ParkingLot.t) :
  lotSaveFails faults id = false ->
  ParkingLot.findById (lots (store w)) id = Some found ->
  let w' := snd (put_parking_lot faults now id availableSpots sensors w) in
  emitted w' = emitted w ++ [ParkingUpdate.mk id availableSpots now]
  /\ random w' = random w
  /\ if historySaveFails faults id
     then history (store w') = history (store w)
          /\ console w' = console w ++ ["Error recording historical data:"]
     else console w' = console w
          /\ exists record,
               history (store w') = history (store w) ++ [record]
               /\ HistoricalData.parkingLotId record = id
               /\ HistoricalData.timestamp record = now
               /\ HistoricalData.availableSpots record = availableSpots
               /\ HistoricalData.dayOfWeek record = getDay now
               /\ HistoricalData.hour record = getHours now
               /\ HistoricalData.occupancyRate record
                  = ((Z2F (ParkingLot.totalSpots found) - Z2F availableSpots)
                     / Z2F (ParkingLot.totalSpots found) * 100)%float.
Proof.
  intros Hsave Hfound w'. unfold w'.
  rewrite (put_parking_lot_found faults now id availableSpots sensors w found Hsave Hfound).
  cbn [snd]. destruct (historySaveFails faults id).
  - repeat split; reflexivity.
  - split; [reflexivity|]. split; [reflexivity|]. split; [reflexivity|].
    eexists. split; [reflexivity|]. repeat split; reflexivity.
Qed.

Lemma put_parking_lot_records_new_state_witness :
  emitted (snd (put_parking_lot noFaults 1000 "B" 7 [] seededWorld))
  = [ParkingUpdate.mk "B" 7 1000].
Proof.
  assert (Hfound : { found | ParkingLot.findById (lots (store seededWorld)) "B" = Some found })
    by (eexists; reflexivity).
  destruct Hfound as [found Hfound].
  exact (proj1 (put_parking_lot_records_new_state noFaults 1000 "B" 7 [] seededWorld found
                  eq_refl Hfound)).
Defined.

(** X12. The update route answers 200 exactly when the lot exists and
    its write succeeds; on every other answer (404 for an id that names
    no lot, 500 for a failed write) nothing is stored, recorded, logged
    or announced. *)
Theorem put_parking_lot_rejected_changes_nothing (faults : Faults) (now : Z) (id : string)
    (availableSpots : Z) (sensors : list Sensor) (w : World) :
  let answer := put_parking_lot faults now id availableSpots sensors w in
  (status (fst answer) = 200
   <-> lotSaveFails faults id = false
       /\ exists found, ParkingLot.findById (lots (store w)) id = Some found)
  /\ (status (fst answer) = 200
      \/ (snd answer = w
          /\ (status (fst answer) = 404
              <-> lotSaveFails faults id = false
                  /\ ParkingLot.findById (lots (store w)) id = None))).
Proof.
  unfold put_parking_lot.
  destruct (lotSaveFails faults id) eqn:Hsave.
  - cbn. split; [split; [discriminate | intros [? _]; discriminate]|].
    right. split; [reflexivity|]. split; [discriminate | intros [? _]; discriminate].
  - destruct (ParkingLot.findById (lots (store w)) id) as [found|] eqn:Hfound.
    + cbn. split; [|now left]. split; [|reflexivity]. intros _. split; [reflexivity|].
      now exists found.
    + cbn. split; [split; [discriminate | intros [_ [? ?]]; discriminate]|].
      right. split; [reflexivity|]. split; [now split | reflexivity].
Qed.

(** X13. The update route and the history route together: when the
    snapshot of a [PUT] is written and the stored records of the lot are
    all older than the request, the history route asked right after
    returns that snapshot first, with the count of the request. *)
Theorem put_then_history_returns_snapshot_first (faults : Faults) (now : Z) (id : string)
    (availableSpots : Z) (sensors : list Sensor) (w : World) (found : ParkingLot.t)
    (limit : option string) :
  lotSaveFails faults id = false ->
  historySaveFails faults id = false ->
  ParkingLot.findById (lots (store w)) id = Some found ->
  (forall r, In r (history (store w)) ->
     HistoricalData.parkingLotId r = id -> HistoricalData.timestamp r < now) ->
  0 < parseInt_or limit 100 ->
  let w' := snd (put_parking_lot faults now id availableSpots sensors w) in
  exists first older,
    snd (get_parking_lot_history (store w') id limit) = first :: older
    /\ HistoricalData.parkingLotId first = id
    /\ HistoricalData.timestamp first = now
    /\ HistoricalData.availableSpots first = availableSpots.
Proof.
  intros Hsave Hhist Hfound Holder Hlimit w'. unfold w'.
  rewrite (put_parking_lot_found faults now id availableSpots sensors w found Hsave Hfound).
  rewrite Hhist. cbn [snd io_emit store history get_parking_lot_history].
  set (lot := ParkingLot.mk id (ParkingLot.name found) (ParkingLot.totalSpots found)
                availableSpots (ParkingLot.location found) sensors now).
  unfold HistoricalData.find_recent.
  set (n := Z.abs_nat (parseInt_or limit 100)).
  set (ofLot := List.filter _ _).
  assert (HofLot : forall r, In r ofLot ->
            r = snapshot now lot \/ HistoricalData.timestamp r < now).
  { intros r Hr. unfold ofLot in Hr. apply filter_In in Hr as [Hr Hid].
    apply bool_decide_eq_true in Hid. apply in_app_or in Hr as [Hr | [<- | []]].
    - right. now apply Holder.
    - now left. }
  assert (Hsnap : In (snapshot now lot) ofLot).
  { unfold ofLot. apply filter_In. split.
    - apply in_or_app. right. now left.
    - now apply bool_decide_eq_true. }
  destruct (newest_first n ofLot) as (Hin & Hsorted & Hlen & dropped & Hperm & Hdropped).
  destruct (take n (HistoricalData.sort_desc ofLot)) as [|first older] eqn:Hout.
  { exfalso. cbn [length] in Hlen. destruct ofLot; [contradiction|].
    cbn [length] in Hlen. lia. }
  exists first, older. split; [reflexivity|].
  assert (Hfirst : first = snapshot now lot).
  { destruct (HofLot first (Hin first (or_introl eq_refl))) as [-> | Hlate]; [reflexivity|].
    exfalso.
    assert (Hle : HistoricalData.timestamp (snapshot now lot)
                  <= HistoricalData.timestamp first).
    { apply list_elem_of_In in Hsnap. rewrite <- Hperm in Hsnap.
      apply list_elem_of_In, in_app_or in Hsnap as [Hkept | Hgone].
      - destruct Hkept as [-> | Hkept]; [lia|].
        apply StronglySorted_inv in Hsorted as [_ Hall].
        rewrite Forall_forall in Hall. apply Hall. now apply list_elem_of_In.
      - apply Hdropped; [exact Hgone | now left]. }
    cbn [snapshot HistoricalData.timestamp] in Hle. lia. }
  subst first. repeat split; reflexivity.
Qed.

Lemma put_then_history_returns_snapshot_first_witness :
  exists first older,
    snd (get_parking_lot_history
           (store (snd (put_parking_lot noFaults (scenarioNow + 60000) "A" 7 []
                          (mkWorld scenarioStore [] [] (constantDraws (9 # 10))))))
           "A" (Some "5"))
    = first :: older
    /\ HistoricalData.parkingLotId first = "A"
    /\ HistoricalData.timestamp first = scenarioNow + 60000
    /\ HistoricalData.availableSpots first = 7.
Proof.
  assert (Hfound : { found | ParkingLot.findById (lots scenarioStore) "A" = Some found })
    by (eexists; reflexivity).
  destruct Hfound as [found Hfound].
  assert (Holder : Forall (fun r => HistoricalData.timestamp r < scenarioNow + 60000)
                     (history scenarioStore))
    by (repeat constructor).
  apply (put_then_history_returns_snapshot_first noFaults (scenarioNow + 60000) "A" 7 []
           (mkWorld scenarioStore [] [] (constantDraws (9 # 10))) found (Some "5")
           eq_refl eq_refl Hfound).
  - intros r Hr _. exact (proj1 (List.Forall_forall _ _) Holder r Hr).
  - reflexivity.
Defined.

(** ** The background job: how far it moves a lot, what it records *)







Lemma recordCurrentState_history (faults : Faults) (now : Z) (id : string) (w : World) :
  history (store (recordCurrentState faults now id w)) = history (store w)
  \/ (historySaveFails faults id = false
      /\ exists r,
           history (store (recordCurrentState faults now id w)) = history (store w) ++ [r]
           /\ HistoricalData.parkingLotId r = id
           /\ HistoricalData.timestamp r = now).
Proof.
  unfold recordCurrentState.
  destruct (ParkingLot.findById (lots (store w)) id); [|now left].
  destruct (historySaveFails faults id); [now left|].
  right. split; [reflexivity|]. eexists. now repeat split.
Qed.

Lemma updateLots_history (faults : Faults) (now : Z) (pending : list ParkingLot.t) :
  forall w : World,
    exists (recorded : list ParkingLot.t) (added : list HistoricalData.t),
      history (store (snd (updateLots faults now pending w))) = history (store w) ++ added
      /\ sublist recorded (Spec.savedPrefix (lotSaveFails faults) pending)
      /\ Forall2 (fun lot r => HistoricalData.parkingLotId r = ParkingLot._id lot
                               /\ HistoricalData.timestamp r = now
                               /\ historySaveFails faults (ParkingLot._id lot) = false)
                 recorded added.
Proof.
  induction pending as [|lot rest IH]; intros w.
  - exists [], []. cbn. rewrite app_nil_r. repeat split; constructor.
  - rewrite updateLots_step. cbv zeta. cbn [Spec.savedPrefix].
    destruct (lotSaveFails faults (ParkingLot._id lot)).
    + exists [], []. cbn. rewrite app_nil_r. repeat split; constructor.
    + match goal with |- context [updateLots faults now rest ?w'] =>
        destruct (IH w') as (recorded & later & Heq & Hsub & Hall);
        assert (Hfirst :
                  history (store w') = history (store w)
                  \/ (historySaveFails faults (ParkingLot._id lot) = false
                      /\ exists r,
                           history (store w') = history (store w) ++ [r]
                           /\ HistoricalData.parkingLotId r = ParkingLot._id lot
                           /\ HistoricalData.timestamp r = now))
      end.
      { unfold io_emit. cbn [store].
        destruct (negb _); [|now left].
        exact (recordCurrentState_history faults now (ParkingLot._id lot) _). }
      destruct Hfirst as [Hsame | (Hwrites & r & Hadded & Hid & Hts)].
      * exists recorded, later. rewrite Heq, Hsame.
        split; [reflexivity|]. split; [now apply sublist_cons | exact Hall].
      * exists (lot :: recorded), (r :: later). rewrite Heq, Hadded, <- app_assoc.
        split; [reflexivity|]. split; [now apply sublist_skip|].
        constructor; [now repeat split | exact Hall].
Qed.

(** X15. One firing of the background job only appends to the history:
    the records stored before are kept in place, and the records added
    are, in store order, one for each lot of a selection of the lots
    whose write succeeded in this firing, so at most one for each such
    lot; each carries the id of its lot and the time of the firing, and
    its own write did not fail.  When the query of the lots fails, or
    the write of the first lot, nothing is recorded. *)
Theorem backgroundJob_history_append_only (faults : Faults) (now : Z) (w : World) :
  let saved := if findFails faults then []
               else Spec.savedPrefix (lotSaveFails faults) (lots (store w)) in
  exists (recorded : list ParkingLot.t) (added : list HistoricalData.t),
    history (store (backgroundJob faults now w)) = history (store w) ++ added
    /\ sublist recorded saved
    /\ Forall2 (fun lot r => HistoricalData.parkingLotId r = ParkingLot._id lot
                             /\ HistoricalData.timestamp r = now
                             /\ historySaveFails faults (ParkingLot._id lot) = false)
               recorded added.
Proof.
  unfold backgroundJob. destruct (findFails faults).
  - exists [], []. cbn. rewrite app_nil_r. repeat split; constructor.
  - destruct (updateLots_history faults now (lots (store w)) w)
      as (recorded & added & Heq & Hsub & Hall).
    exists recorded, added. cbv zeta.
    destruct (updateLots faults now (lots (store w)) w) as [[[]|e] w'];
      (split; [exact Heq | now split]).
Qed.
